(** * NekMonitor: the log parser and the polling loop of NekMonitor.py

    A shallow embedding of [NekMonitor.parse_log], [NekMonitor.update_data],
    [NekMonitor.flash_led], [NekMonitor.update_plots] and
    [NekMonitor.on_label_click], and the properties of the specification
    that are about them.

    Conventions of the embedding:
    - a text is a [string]: a sequence of characters with code points below
      256, read as Unicode code points (so [\s] and [\d] are the Unicode
      classes restricted to that range);
    - a Python [float] is a binary64 number, a [spec_float] with precision
      53 and maximal exponent 1024, and its arithmetic and comparisons are
      those of [SpecFloat]; a Python [int] is a [Z];
    - a call that can raise returns an [outcome]; a method of the widget is
      a function from the object's state to an outcome, the new state and
      the calls made on the toolkit;
    - what the program reads from outside (the clock, the modification
      time of the log file, the file) is an argument of the method that
      reads it, and so is what the two calls on the figure that end a
      drawing give, which is up to matplotlib. *)

From Stdlib Require Import ZArith List String Ascii Bool Lia SpecFloat.
Import ListNotations.

Set Implicit Arguments.

Local Open Scope string_scope.
Local Open Scope Z_scope.

(** ** Exceptions and outcomes *)

(** The subclasses of OSError that a file-system call raises. *)
Inductive oserror :=
| FileNotFoundError
| PermissionError
| IsADirectoryError
| OtherOSError (errno : Z).

(** UnicodeDecodeError is a subclass of ValueError in Python; no handler
    of the program names either. *)
Inductive exn :=
| OSError (e : oserror)
| ValueError
| UnicodeDecodeError
| OverflowError
| IndexError.

Inductive outcome (A : Type) :=
| Ok (a : A)
| Raise (e : exn).
Arguments Ok {A} a.
Arguments Raise {A} e.

Definition obind {A B} (x : outcome A) (f : A -> outcome B) : outcome B :=
  match x with
  | Ok a => f a
  | Raise e => Raise e
  end.

Declare Scope outcome_scope.
Delimit Scope outcome_scope with outcome.
Notation "x <- c1 ;; c2" := (obind c1 (fun x => c2))
  (at level 61, c1 at next level, right associativity) : outcome_scope.

(** ** Regular expressions: the fragment of [re] that the pattern uses *)

Module Re.

(** An item of a character set. *)
Inductive item :=
| Chr (c : ascii)          (* the character itself *)
| Rng (lo hi : ascii)      (* lo-hi inside brackets *)
| Space                    (* \s *)
| Digit.                   (* \d *)

(** [\s] on a str pattern: the characters for which [str.isspace] holds. *)
Definition is_space (c : ascii) : bool :=
  let n := N_of_ascii c in
  ((9 <=? n) && (n <=? 13) || (28 <=? n) && (n <=? 32)
   || (n =? 133) || (n =? 160))%N.

(** [\d] on a str pattern: the decimal digits; below 256 these are 0-9. *)
Definition is_digit (c : ascii) : bool :=
  let n := N_of_ascii c in ((48 <=? n) && (n <=? 57))%N.

Definition item_mem (c : ascii) (i : item) : bool :=
  match i with
  | Chr d => Ascii.eqb c d
  | Rng lo hi => ((N_of_ascii lo <=? N_of_ascii c) && (N_of_ascii c <=? N_of_ascii hi))%N
  | Space => is_space c
  | Digit => is_digit c
  end.

(** A set is the union of its items. *)
Definition mem (c : ascii) (cs : list item) : bool := existsb (item_mem c) cs.

(** The pattern repeats single characters only, so the two quantifiers
    apply to a set. Both are greedy. *)
Inductive regex :=
| Eps
| Atom (cs : list item)
| Star (cs : list item)
| Plus (cs : list item)
| Group (r : regex)
| Seq (r1 r2 : regex).

Fixpoint lit (s : string) : regex :=
  match s with
  | EmptyString => Eps
  | String c s' => Seq (Atom [Chr c]) (lit s')
  end.

Definition cat (rs : list regex) : regex := fold_right Seq Eps rs.

Section Matcher.
Variable R : Type.

(** [star cs s k]: the longest run of [cs] at the head of [s] first, then
    every shorter one, until the continuation [k] accepts. [k] receives
    the text consumed and the text left. *)
Fixpoint star (cs : list item) (s : string)
         (k : string -> string -> option R) : option R :=
  match s with
  | String c s' =>
      if mem c cs then
        match star cs s' (fun t rest => k (String c t) rest) with
        | Some x => Some x
        | None => k "" s
        end
      else k "" s
  | EmptyString => k "" s
  end.

(** The backtracking matcher. [caps] are the groups closed so far, in
    the order of their closing parentheses. *)
Fixpoint rmatch (r : regex) (s : string) (caps : list string)
         (k : string -> string -> list string -> option R) : option R :=
  match r with
  | Eps => k "" s caps
  | Atom cs =>
      match s with
      | String c s' => if mem c cs then k (String c "") s' caps else None
      | EmptyString => None
      end
  | Star cs => star cs s (fun t rest => k t rest caps)
  | Plus cs =>
      match s with
      | String c s' =>
          if mem c cs then star cs s' (fun t rest => k (String c t) rest caps)
          else None
      | EmptyString => None
      end
  | Group r1 => rmatch r1 s caps (fun t rest c => k t rest (c ++ [t])%list)
  | Seq r1 r2 =>
      rmatch r1 s caps (fun t1 s1 c1 =>
        rmatch r2 s1 c1 (fun t2 s2 c2 => k (t1 ++ t2)%string s2 c2))
  end.
End Matcher.

(** A match object: group 0 (the whole match) followed by the groups. *)
Definition match_obj := list string.

(** [pattern.search(line)]: the first match at the leftmost position that
    has one; [None] when no position has. *)
Fixpoint search (r : regex) (s : string) : option match_obj :=
  match rmatch r s [] (fun t _ caps => Some (t :: caps)) with
  | Some m => Some m
  | None =>
      match s with
      | String _ s' => search r s'
      | EmptyString => None
      end
  end.

(** [m.group(i)]. *)
Definition group (m : match_obj) (i : nat) : outcome string :=
  match nth_error m i with
  | Some g => Ok g
  | None => Raise IndexError
  end.

End Re.

(** ** The conversions [int] and [float] *)

Definition pyfloat := spec_float.

Definition prec : Z := 53.
Definition emax : Z := 1024.

Fixpoint span_digits (s : string) : string * string :=
  match s with
  | String c s' =>
      if Re.is_digit c then let (d, rest) := span_digits s' in (String c d, rest)
      else ("", s)
  | EmptyString => ("", "")
  end.

(** The value of a run of decimal digits. *)
Fixpoint digits_value (s : string) (acc : Z) : Z :=
  match s with
  | String c s' => digits_value s' (10 * acc + (Z.of_N (N_of_ascii c) - 48))
  | EmptyString => acc
  end.

(** CPython refuses to convert a text of more than 4300 digits to an int
    ([sys.int_info.default_max_str_digits], in every CPython since 3.11
    and in the later releases of 3.7 to 3.10); the program leaves the
    setting alone. *)
Definition int_max_str_digits : nat := 4300.

(** [int(s)] for a text without blanks, sign or underscores (group 1 is a
    run of digits, lemma [search_groups]): a non-empty run of at most
    [int_max_str_digits] digits is read in base ten, every other text of
    this kind raises ValueError. *)
Definition int (s : string) : outcome Z :=
  match span_digits s with
  | (String c d, EmptyString) =>
      if (String.length s <=? int_max_str_digits)%nat
      then Ok (digits_value (String c d) 0)
      else Raise ValueError
  | _ => Raise ValueError
  end.

Definition read_sign (s : string) : bool * string :=
  match s with
  | String "-" s' => (true, s')
  | String "+" s' => (false, s')
  | _ => (false, s)
  end.

(** The binary64 number nearest to [m * 10^e] (ties to even), signed:
    what a decimal numeral denotes as a float. For [e < 0] the quotient of
    the integers [m] and [10^-e] is rounded once by [SFdiv]. *)
Definition of_decimal (neg : bool) (m : Z) (e : Z) : pyfloat :=
  match m with
  | Zpos p =>
      if 0 <=? e then binary_normalize prec emax (if neg then Zneg p * 10 ^ e else Zpos p * 10 ^ e) 0 neg
      else SFdiv prec emax (S754_finite neg p 0)
                           (S754_finite false (Z.to_pos (10 ^ (- e))) 0)
  | _ => S754_zero neg
  end.

(** [float(s)] for a text over the characters of the pattern's class,
    0-9 E + - . (groups 2-6 are such texts, lemma [search_groups]). There
    float meets no blank, underscore, inf or nan, and accepts
    [sign] digits [. digits] [E [sign] digits] with a digit before the
    exponent; any other text raises ValueError. *)
Definition float (s : string) : outcome pyfloat :=
  let (neg, s1) := read_sign s in
  let (ip, s2) := span_digits s1 in
  let (fp, s3) := match s2 with
                  | String "." r => span_digits r
                  | _ => ("", s2)
                  end in
  let m := digits_value (ip ++ fp) 0 in
  let scale := Z.of_nat (String.length fp) in
  match ip ++ fp with
  | EmptyString => Raise ValueError
  | _ =>
      match s3 with
      | EmptyString => Ok (of_decimal neg m (- scale))
      | String c r =>
          if (Ascii.eqb c "E" || Ascii.eqb c "e")%bool then
            let (eneg, r1) := read_sign r in
            match span_digits r1 with
            | (String d ds, EmptyString) =>
                let ex := digits_value (String d ds) 0 in
                Ok (of_decimal neg m ((if eneg then - ex else ex) - scale))
            | _ => Raise ValueError
            end
          else Raise ValueError
      end
  end.

(** ** The object *)

(** What an operating-system call gives: a value or an OSError. *)
Inductive syscall (A : Type) :=
| Returns (a : A)
| Errno (e : oserror).
Arguments Returns {A} a.
Arguments Errno {A} e.

Definition run {A} (c : syscall A) : outcome A :=
  match c with
  | Returns a => Ok a
  | Errno e => Raise (OSError e)
  end.

(** What iterating over the open file gives: the lines it yields (each
    with its line end, if it has one) and how the iteration ends, at the
    end of the file ([None]) or by an exception of the read. The read
    raises UnicodeDecodeError when it meets bytes that are not text in
    the encoding of the locale; the lines of the chunk that holds these
    bytes are not yielded. *)
Record reading := {
  r_lines : list string;
  r_error : option exn
}.

(** A file read to its end. *)
Definition all_read (lines : list string) : reading :=
  {| r_lines := lines; r_error := None |}.

(** What the two calls that end a drawing give, [figure.tight_layout()]
    and [canvas.draw()]. Matplotlib scales the axes and places the ticks
    there, and raises on data it cannot scale (ValueError with a time of
    1.7E308). When they raise is not modelled: what they give is taken
    from outside, like the answers of the operating system. *)
Record figure := {
  fig_tight_layout : outcome unit;
  fig_draw : outcome unit
}.

(** What one poll tick meets outside: [os.path.getmtime(log_path)],
    [time.time()], [open(log_path)] with what the file yields, and what
    the figure does when it is laid out and drawn. *)
Record world := {
  w_getmtime : syscall pyfloat;
  w_time : pyfloat;
  w_open : syscall reading;
  w_figure : figure
}.

Inductive led := update_led | delay_led.

(** The artists of the figure that a pick event can name. [XLabel i] is
    the x-axis label of [axes[i]], the object [ax.set_xlabel] returns. *)
Inductive artist :=
| XLabel (i : nat)
| OtherArtist (n : nat).

Definition artist_eqb (a b : artist) : bool :=
  match a, b with
  | XLabel i, XLabel j => Nat.eqb i j
  | OtherArtist i, OtherArtist j => Nat.eqb i j
  | _, _ => false
  end.

(** The data of a line: [steps] holds ints, the other lists floats. *)
Inductive series :=
| Ints (l : list Z)
| Floats (l : list pyfloat).

Definition series_length (s : series) : nat :=
  match s with
  | Ints l => List.length l
  | Floats l => List.length l
  end.

(** What a subplot shows after [ax.plot], [set_title], [set_xlabel] and
    [set_ylabel]. *)
Record chart := {
  c_x : series;
  c_y : series;
  c_color : string;
  c_title : string;
  c_xlabel : string;
  c_ylabel : string
}.

(** The six parallel lists, as the tuple [parse_log] returns. *)
Definition six : Type :=
  list Z * list pyfloat * list pyfloat * list pyfloat * list pyfloat * list pyfloat.

Record NekMonitor := {
  last_file_mod : pyfloat;
  last_update_time : pyfloat;
  steps : list Z;
  times : list pyfloat;
  dts : list pyfloat;
  cfls : list pyfloat;
  total_times : list pyfloat;
  step_times : list pyfloat;
  x_modes : list string;
  label_texts : list artist;
  axes : list (option chart)      (* None: a cleared subplot *)
}.

Definition poll_interval_ms : Z := 1000.
Definition colors : list string :=
  ["#FF6F61"; "#6B5B95"; "#88B04B"; "#F7CAC9"; "#92A8D1"].

Definition lists (self : NekMonitor) : six :=
  (steps self, times self, dts self, cfls self, total_times self, step_times self).

(** Calls on the toolkit that leave the object, in the order in which
    they are made; a call is recorded whether it returns or raises. *)
Inductive call :=
| SetStyleSheet (w : led) (style : string)
| SingleShot (ms : Z) (callback : call)
| TightLayout
| CanvasDraw.

(** A method: from the state of [self] to an outcome, the state it leaves
    (also when it raises) and the calls it made. *)
Definition M (A : Type) : Type := NekMonitor -> outcome A * NekMonitor * list call.

Definition ret {A} (a : A) : M A := fun self => (Ok a, self, []).

Definition bind {A B} (m : M A) (f : A -> M B) : M B :=
  fun self =>
    match m self with
    | (Ok a, self1, cs1) =>
        let '(r, self2, cs2) := f a self1 in (r, self2, (cs1 ++ cs2)%list)
    | (Raise e, self1, cs1) => (Raise e, self1, cs1)
    end.

Definition get : M NekMonitor := fun self => (Ok self, self, []).
Definition modify (f : NekMonitor -> NekMonitor) : M unit :=
  fun self => (Ok tt, f self, []).
Definition emit (c : call) : M unit := fun self => (Ok tt, self, [c]).
Definition lift {A} (o : outcome A) : M A := fun self => (o, self, []).

Declare Scope method_scope.
Delimit Scope method_scope with method.
Notation "x <- c1 ;; c2" := (bind c1 (fun x => c2))
  (at level 61, c1 at next level, right associativity) : method_scope.
Notation "c1 ;; c2" := (bind c1 (fun _ => c2))
  (at level 61, right associativity) : method_scope.

(** [for x in l: body x]. *)
Fixpoint for_each {A} (l : list A) (body : A -> M unit) : M unit :=
  match l with
  | [] => ret tt
  | x :: l' => (body x ;; for_each l' body)%method
  end.

(** [l[i]], IndexError when [i] is out of range. *)
Definition index {A} (l : list A) (i : nat) : outcome A :=
  match nth_error l i with
  | Some a => Ok a
  | None => Raise IndexError
  end.

(** The list [l] after [l[i] = v] (for [i] in range). *)
Fixpoint set_nth {A} (l : list A) (i : nat) (v : A) : list A :=
  match l, i with
  | [], _ => []
  | _ :: l', O => v :: l'
  | a :: l', S i' => a :: set_nth l' i' v
  end.

(** [l.index(a)] when [a in l]; [None] when [a] is not in [l]. *)
Fixpoint index_of (a : artist) (l : list artist) : option nat :=
  match l with
  | [] => None
  | b :: l' => if artist_eqb b a then Some O else option_map S (index_of a l')
  end.

(** Field updates. *)
Definition set_last_file_mod (v : pyfloat) (s : NekMonitor) : NekMonitor :=
  {| last_file_mod := v; last_update_time := last_update_time s;
     steps := steps s; times := times s; dts := dts s; cfls := cfls s;
     total_times := total_times s; step_times := step_times s;
     x_modes := x_modes s; label_texts := label_texts s; axes := axes s |}.
Definition set_last_update_time (v : pyfloat) (s : NekMonitor) : NekMonitor :=
  {| last_file_mod := last_file_mod s; last_update_time := v;
     steps := steps s; times := times s; dts := dts s; cfls := cfls s;
     total_times := total_times s; step_times := step_times s;
     x_modes := x_modes s; label_texts := label_texts s; axes := axes s |}.
Definition set_lists (r : six) (s : NekMonitor) : NekMonitor :=
  let '(a, b, c, d, e, f) := r in
  {| last_file_mod := last_file_mod s; last_update_time := last_update_time s;
     steps := a; times := b; dts := c; cfls := d;
     total_times := e; step_times := f;
     x_modes := x_modes s; label_texts := label_texts s; axes := axes s |}.
Definition set_x_modes (v : list string) (s : NekMonitor) : NekMonitor :=
  {| last_file_mod := last_file_mod s; last_update_time := last_update_time s;
     steps := steps s; times := times s; dts := dts s; cfls := cfls s;
     total_times := total_times s; step_times := step_times s;
     x_modes := v; label_texts := label_texts s; axes := axes s |}.
Definition set_label_texts (v : list artist) (s : NekMonitor) : NekMonitor :=
  {| last_file_mod := last_file_mod s; last_update_time := last_update_time s;
     steps := steps s; times := times s; dts := dts s; cfls := cfls s;
     total_times := total_times s; step_times := step_times s;
     x_modes := x_modes s; label_texts := v; axes := axes s |}.
Definition set_axes (v : list (option chart)) (s : NekMonitor) : NekMonitor :=
  {| last_file_mod := last_file_mod s; last_update_time := last_update_time s;
     steps := steps s; times := times s; dts := dts s; cfls := cfls s;
     total_times := total_times s; step_times := step_times s;
     x_modes := x_modes s; label_texts := label_texts s; axes := v |}.

(** ** The methods *)

Local Open Scope method_scope.

(** The int [0] that stands for the modification time of a missing file;
    compared with a float it behaves as the float zero. *)
Definition zero : pyfloat := S754_zero false.

(** [__init__]: [getmtime] is the outcome of [os.path.getmtime(log_path)]
    and [now] the value of [time.time()]. [init_ui] creates the five
    subplots and an empty [label_texts]. *)
Definition init (getmtime : syscall pyfloat) (now : pyfloat) : NekMonitor :=
  {| last_file_mod :=
       match getmtime with
       | Returns m => m
       | Errno _ => zero              (* except OSError *)
       end;
     last_update_time := now;
     steps := []; times := []; dts := []; cfls := [];
     total_times := []; step_times := [];
     x_modes := repeat "step" 5;
     label_texts := [];
     axes := repeat None 5 |}.

Definition style (color : string) : string :=
  "background-color: " ++ color ++ "; border:1px solid black; border-radius:8px;".

Definition flash_led (w : led) (color : string) : M unit :=
  emit (SetStyleSheet w (style color)) ;;
  emit (SingleShot 50 (SetStyleSheet w (style "gray"))).

(** The compiled pattern of [parse_log]:
    Step\s+(\d+),\s*t=\s*([0-9E\+\-\.]+),\s*DT=\s*([0-9E\+\-\.]+),\s*C=\s*([0-9E\+\-\.]+)\s*([0-9E\+\-\.]+)\s*([0-9E\+\-\.]+) *)
Definition num : Re.regex :=
  Re.Group (Re.Plus [Re.Rng "0" "9"; Re.Chr "E"; Re.Chr "+"; Re.Chr "-"; Re.Chr "."]).

Definition pattern : Re.regex :=
  Re.cat [Re.lit "Step"; Re.Plus [Re.Space]; Re.Group (Re.Plus [Re.Digit]);
          Re.lit ","; Re.Star [Re.Space]; Re.lit "t="; Re.Star [Re.Space]; num;
          Re.lit ","; Re.Star [Re.Space]; Re.lit "DT="; Re.Star [Re.Space]; num;
          Re.lit ","; Re.Star [Re.Space]; Re.lit "C="; Re.Star [Re.Space]; num;
          Re.Star [Re.Space]; num;
          Re.Star [Re.Space]; num].

Definition empty : six := ([], [], [], [], [], []).

(** The body of the loop of [parse_log] on one line; [acc] are the six
    local lists. The six appends of a matching line are taken together: a
    conversion that raises leaves the function, and the local lists with
    it. *)
Definition parse_line (line : string) (acc : six) : outcome six :=
  let '(steps, times, dts, cfls, total_times, step_times) := acc in
  match Re.search pattern line with
  | Some m =>
      (g1 <- Re.group m 1 ;; a <- int g1 ;;
       g2 <- Re.group m 2 ;; b <- float g2 ;;
       g3 <- Re.group m 3 ;; c <- float g3 ;;
       g4 <- Re.group m 4 ;; d <- float g4 ;;
       g5 <- Re.group m 5 ;; e <- float g5 ;;
       g6 <- Re.group m 6 ;; f <- float g6 ;;
       Ok (steps ++ [a], times ++ [b], dts ++ [c], cfls ++ [d],
           total_times ++ [e], step_times ++ [f])%list)%outcome
  | None => Ok acc
  end.

Fixpoint parse_lines (lines : list string) (acc : six) : outcome six :=
  match lines with
  | [] => Ok acc
  | line :: rest => (acc' <- parse_line line acc ;; parse_lines rest acc')%outcome
  end.

(** How the loop ends once the lines the file yields are dealt with:
    the iteration is over, or the read raises. The [try] block holds the
    loop, so that a FileNotFoundError of the read would be caught like
    that of [open], with the local lists as they are. *)
Definition loop_end (err : option exn) (acc : six) : outcome six :=
  match err with
  | None => Ok acc
  | Some (OSError FileNotFoundError) => Ok acc        (* except: pass *)
  | Some e => Raise e
  end.

(** [parse_log]: [file] is the outcome of [open(self.log_path)] together
    with what iterating over the file gives. Only FileNotFoundError is
    caught; the exception of a conversion (a ValueError, lemma
    [parse_lines_raises]) leaves the function, and the local lists with
    it. *)
Definition parse_log (file : syscall reading) : outcome six :=
  match run file with
  | Ok f => (acc <- parse_lines (r_lines f) empty ;; loop_end (r_error f) acc)%outcome
  | Raise (OSError FileNotFoundError) => Ok empty     (* except: pass *)
  | Raise e => Raise e
  end.

Definition titles : list string :=
  ["Solution Time vs Step"; "Time Step (DT)"; "CFL"; "Total Wall Time"; "Step Wall Time"].
Definition ylabels : list string :=
  ["Solution Time"; "DT"; "CFL"; "Total Wall Time"; "Step Wall Time"].

(** The int [n] as a float, rounded to nearest, ties to even. *)
Definition float_of_int (n : Z) : pyfloat := binary_normalize prec emax n 0 false.

Definition finite (x : pyfloat) : bool :=
  match x with
  | S754_zero _ | S754_finite _ _ _ => true
  | S754_infinity _ | S754_nan => false
  end.

(** An int that a float can hold: [float(n)] raises OverflowError when
    [n] rounds beyond the largest float. *)
Definition fits (n : Z) : bool := finite (float_of_int n).

(** Data that matplotlib can turn into an array of floats. *)
Definition plottable (s : series) : bool :=
  match s with
  | Ints l => forallb fits l
  | Floats _ => true
  end.

(** [ax.plot(x, y, ...)]: ValueError when x and y differ in length;
    OverflowError when the line made of them is added to the subplot and
    an int of the data is beyond the range of float. Either way the
    subplot stays cleared. *)
Definition plot (x y : series) : outcome unit :=
  if negb (Nat.eqb (series_length x) (series_length y)) then Raise ValueError
  else if plottable x && plottable y then Ok tt
  else Raise OverflowError.

(** One round of the loop of [update_plots], for [axes[i]]. *)
Definition redraw (i : nat) : M unit :=
  self <- get ;;
  let data_sets := [times self; dts self; cfls self; total_times self; step_times self] in
  modify (fun s => set_axes (set_nth (axes s) i None) s) ;;          (* ax.clear() *)
  mode <- lift (index (x_modes self) i) ;;
  xy <- match i with
        | O =>
            ret (if String.eqb mode "step"
                 then (Ints (steps self), Floats (times self), "Step", "Solution Time")
                 else (Floats (times self), Ints (steps self), "Solution Time", "Step"))
        | S _ =>
            ydata <- lift (index data_sets i) ;;
            yl <- lift (index ylabels i) ;;
            ret (if String.eqb mode "step"
                 then (Ints (steps self), Floats ydata, "Step", yl)
                 else (Floats (times self), Floats ydata, "Solution Time", yl))
        end ;;
  let '(x, y, xl, yl) := xy in
  color <- lift (index colors i) ;;
  lift (plot x y) ;;                                                 (* ax.plot(x, y, ...) *)
  title <- lift (index titles i) ;;
  modify (fun s => set_axes (set_nth (axes s) i
            (Some {| c_x := x; c_y := y; c_color := color; c_title := title;
                     c_xlabel := xl; c_ylabel := yl |})) s) ;;
  modify (fun s => set_label_texts (label_texts s ++ [XLabel i]) s).

(** [update_plots]; [fig] is what the figure does when it is laid out
    and drawn. An exception of a round leaves the loop and the method. *)
Definition update_plots (fig : figure) : M unit :=
  modify (set_label_texts []) ;;
  self <- get ;;
  for_each (seq 0 (List.length (axes self))) redraw ;;
  emit TightLayout ;;
  lift (fig_tight_layout fig) ;;
  emit CanvasDraw ;;
  lift (fig_draw fig).

(** The float literals [1000.] and [1.1]. *)
Definition lit_1000 : pyfloat := of_decimal false 1000 0.
Definition lit_1_1 : pyfloat := of_decimal false 11 (-1).

(** [(self.poll_interval_ms/1000.) * 1.1] *)
Definition jam_threshold : pyfloat :=
  SFmul prec emax (SFdiv prec emax (float_of_int poll_interval_ms) lit_1000) lit_1_1.

Definition update_data (w : world) : M unit :=
  let mod_ := match w_getmtime w with
              | Returns m => m
              | Errno _ => zero          (* except OSError *)
              end in
  self <- get ;;
  (if SFltb (last_file_mod self) mod_          (* mod > self.last_file_mod *)
   then flash_led update_led "green" ;; modify (set_last_file_mod mod_)
   else ret tt) ;;
  let now := w_time w in
  self <- get ;;
  let elapsed := SFsub prec emax now (last_update_time self) in
  (if SFltb jam_threshold elapsed              (* elapsed > ... *)
   then flash_led delay_led "red"
   else ret tt) ;;
  modify (set_last_update_time now) ;;
  r <- lift (parse_log (w_open w)) ;;
  modify (set_lists r) ;;
  update_plots (w_figure w).

(** [on_label_click(event)], [a] being [event.artist]; [fig] is what the
    figure does when it is laid out and drawn. *)
Definition on_label_click (a : artist) (fig : figure) : M unit :=
  self <- get ;;
  match index_of a (label_texts self) with
  | Some idx =>
      old <- lift (index (x_modes self) idx) ;;
      modify (fun s => set_x_modes
                (set_nth (x_modes s) idx (if String.eqb old "step" then "time" else "step")) s) ;;
      update_plots fig
  | None => ret tt
  end.

(** ** Runs of the program *)

(** What the event loop delivers: a timer tick with what the tick meets
    outside, or a pick event with the artist picked and what the figure
    does when it is drawn again. *)
Inductive event :=
| Tick (w : world)
| Pick (a : artist) (fig : figure).

Definition handle (ev : event) : M unit :=
  match ev with
  | Tick w => update_data w
  | Pick a fig => on_label_click a fig
  end.

(** The state after a handler, whatever its outcome. *)
Definition state_after {A} (m : M A) (self : NekMonitor) : NekMonitor :=
  snd (fst (m self)).
Definition outcome_of {A} (m : M A) (self : NekMonitor) : outcome A :=
  fst (fst (m self)).
Definition calls_of {A} (m : M A) (self : NekMonitor) : list call :=
  snd (m self).

(** The states the object goes through. A handler that raises leaves the
    state it had reached; whether the event loop goes on from it or the
    process ends is up to PyQt, and the runs that go on include the
    others. *)
Fixpoint exec (self : NekMonitor) (evs : list event) : NekMonitor :=
  match evs with
  | [] => self
  | ev :: evs' => exec (state_after (handle ev) self) evs'
  end.

Definition reachable (self : NekMonitor) : Prop :=
  exists getmtime now evs, self = exec (init getmtime now) evs.

(** * The vocabulary of the properties *)

Local Close Scope method_scope.
Local Open Scope list_scope.

(** ** Matches *)

(** [all_in cs s]: every character of [s] is in the set [cs]. *)
Fixpoint all_in (cs : list Re.item) (s : string) : bool :=
  match s with
  | EmptyString => true
  | String c s' => Re.mem c cs && all_in cs s'
  end.

(** The texts a regex accepts, with the groups it closes. *)
Inductive Matches : Re.regex -> string -> list string -> Prop :=
| MEps : Matches Re.Eps "" []
| MAtom c cs : Re.mem c cs = true -> Matches (Re.Atom cs) (String c "") []
| MStar cs t : all_in cs t = true -> Matches (Re.Star cs) t []
| MPlus cs c t :
    Re.mem c cs = true -> all_in cs t = true -> Matches (Re.Plus cs) (String c t) []
| MGroup r t caps : Matches r t caps -> Matches (Re.Group r) t (caps ++ [t])
| MSeq r1 r2 t1 t2 c1 c2 :
    Matches r1 t1 c1 -> Matches r2 t2 c2 ->
    Matches (Re.Seq r1 r2) (t1 ++ t2)%string (c1 ++ c2).

Definition digit_set : list Re.item := [Re.Digit].
Definition num_set : list Re.item :=
  [Re.Rng "0" "9"; Re.Chr "E"; Re.Chr "+"; Re.Chr "-"; Re.Chr "."].

(** A non-empty text over a set. *)
Definition run_of (cs : list Re.item) (g : string) : Prop :=
  g <> "" /\ all_in cs g = true.

(** The match objects of the lines on which the pattern matches, in the
    order of the lines. *)
Definition matches_of (lines : list string) : list Re.match_obj :=
  flat_map (fun line => match Re.search pattern line with
                        | Some m => [m]
                        | None => []
                        end) lines.

(** ** Conversions *)

(** [int(m.group(i))] and [float(m.group(i))]. *)
Definition group_int (m : Re.match_obj) (i : nat) : outcome Z :=
  (g <- Re.group m i ;; int g)%outcome.
Definition group_float (m : Re.match_obj) (i : nat) : outcome pyfloat :=
  (g <- Re.group m i ;; float g)%outcome.

Definition row : Type := Z * pyfloat * pyfloat * pyfloat * pyfloat * pyfloat.

(** The six values a matching line gives, converted in the order of the
    source. *)
Definition convert (m : Re.match_obj) : outcome row :=
  (a <- group_int m 1 ;; b <- group_float m 2 ;; c <- group_float m 3 ;;
   d <- group_float m 4 ;; e <- group_float m 5 ;; f <- group_float m 6 ;;
   Ok (a, b, c, d, e, f))%outcome.

Definition push (acc : six) (r : row) : six :=
  let '(steps, times, dts, cfls, total_times, step_times) := acc in
  let '(a, b, c, d, e, f) := r in
  (steps ++ [a], times ++ [b], dts ++ [c], cfls ++ [d], total_times ++ [e], step_times ++ [f]).

(** [f] on every element in turn, up to the first that raises. *)
Fixpoint traverse {A B} (f : A -> outcome B) (l : list A) : outcome (list B) :=
  match l with
  | [] => Ok []
  | a :: l' => (b <- f a ;; bs <- traverse f l' ;; Ok (b :: bs))%outcome
  end.

(** The six columns of a list of rows. *)
Definition columns (rows : list row) : six :=
  (map (fun '(a, _, _, _, _, _) => a) rows,
   map (fun '(_, b, _, _, _, _) => b) rows,
   map (fun '(_, _, c, _, _, _) => c) rows,
   map (fun '(_, _, _, d, _, _) => d) rows,
   map (fun '(_, _, _, _, e, _) => e) rows,
   map (fun '(_, _, _, _, _, f) => f) rows).

Definition app6 (r1 r2 : six) : six :=
  let '(a1, b1, c1, d1, e1, f1) := r1 in
  let '(a2, b2, c2, d2, e2, f2) := r2 in
  (a1 ++ a2, b1 ++ b2, c1 ++ c2, d1 ++ d2, e1 ++ e2, f1 ++ f2).

Definition int_ok (m : Re.match_obj) : Prop :=
  exists n, group_int m 1 = Ok n.

Definition floats_ok (m : Re.match_obj) : Prop :=
  forall i, (2 <= i <= 6)%nat -> exists x, group_float m i = Ok x.

(** ** The six lists *)

Definition eq_len (r : six) : Prop :=
  let '(a, b, c, d, e, f) := r in
  List.length b = List.length a /\ List.length c = List.length a /\
  List.length d = List.length a /\ List.length e = List.length a /\
  List.length f = List.length a.

Definition prefix {A} (l1 l2 : list A) : Prop := exists k, l2 = l1 ++ k.

Definition prefix6 (r1 r2 : six) : Prop :=
  let '(a1, b1, c1, d1, e1, f1) := r1 in
  let '(a2, b2, c2, d2, e2, f2) := r2 in
  prefix a1 a2 /\ prefix b1 b2 /\ prefix c1 c2 /\
  prefix d1 d2 /\ prefix e1 e2 /\ prefix f1 f2.

(** ** Methods *)

(** A method leaves a component of the state as it was. *)
Definition stable {A B} (proj : NekMonitor -> B) (m : M A) : Prop :=
  forall s, proj (state_after m s) = proj s.

(** Every call a method makes is in [P]. *)
Definition calls_in {A} (P : call -> Prop) (m : M A) : Prop :=
  forall s c, In c (calls_of m s) -> P c.

(** The calls of [update_plots]. *)
Definition drawing (c : call) : Prop := c = TightLayout \/ c = CanvasDraw.

(** The labels [update_plots] registers. *)
Definition xlabels : list artist := map XLabel (seq 0 5).

(** The mode a click leaves. *)
Definition toggled (old : string) : string :=
  if String.eqb old "step" then "time" else "step".

(** ** A tick, up to [parse_log] *)

(** The modification time a tick works with. *)
Definition mod_of (w : world) : pyfloat :=
  match w_getmtime w with
  | Returns m => m
  | Errno _ => zero
  end.

Definition newer (w : world) (self : NekMonitor) : bool :=
  SFltb (last_file_mod self) (mod_of w).

Definition elapsed (w : world) (self : NekMonitor) : pyfloat :=
  SFsub prec emax (w_time w) (last_update_time self).

Definition jammed (w : world) (self : NekMonitor) : bool :=
  SFltb jam_threshold (elapsed w self).

Definition flash_calls (l : led) (color : string) : list call :=
  [SetStyleSheet l (style color); SingleShot 50 (SetStyleSheet l (style "gray"))].

(** The state when [update_data] reaches [parse_log]. *)
Definition clocked (w : world) (self : NekMonitor) : NekMonitor :=
  set_last_update_time (w_time w)
    (if newer w self then set_last_file_mod (mod_of w) self else self).

Definition led_calls (w : world) (self : NekMonitor) : list call :=
  (if newer w self then flash_calls update_led "green" else []) ++
  (if jammed w self then flash_calls delay_led "red" else []).

(** ** What holds in every state of a run *)

Definition is_mode (m : string) : Prop := m = "step" \/ m = "time".

Record wf (self : NekMonitor) : Prop := {
  wf_modes_len : List.length (x_modes self) = 5%nat;
  wf_modes : Forall is_mode (x_modes self);
  wf_axes : List.length (axes self) = 5%nat;
  wf_labels : label_texts self = [] \/ label_texts self = xlabels;
  wf_plotted : label_texts self = xlabels -> forallb fits (steps self) = true;
  wf_lists : eq_len (lists self)
}.

(** A float that is not below 0, and the runs in which no modification
    time read is below 0. *)
Definition not_negative (x : pyfloat) : Prop := SFltb x zero = false.

Definition mtime_ok (g : syscall pyfloat) : Prop :=
  match g with
  | Returns m => not_negative m
  | Errno _ => True
  end.

Fixpoint ticks_ok (evs : list event) : Prop :=
  match evs with
  | [] => True
  | Tick w :: evs' => mtime_ok (w_getmtime w) /\ ticks_ok evs'
  | Pick _ _ :: evs' => ticks_ok evs'
  end.

(** ** Sample inputs *)

(** Three lines of a log of Nek5000. *)
Definition sample_lines : list string :=
  ["Step      1, t= 1.0000000E-03, DT= 1.0000000E-03, C=  0.016 4.4296E+00 4.4296E+00";
   " Solving for fluid";
   "Step      2, t= 2.0000000E-03, DT= 1.0000000E-03, C=  0.017 8.5E+00 4.1E+00"].

(** A line whose last field is cut after the exponent mark, as a reader
    meets it while the simulation is writing the line. *)
Definition cut_line : string :=
  "Step      2, t= 2.0000000E-03, DT= 1.0000000E-03, C=  0.017 8.5E+00 4.1E".

(** [n] times the digit 1. *)
Fixpoint ones (n : nat) : string :=
  match n with
  | O => ""
  | S n' => String "1" (ones n')
  end.

Definition t0 : pyfloat := of_decimal false 1700000000 0.

(** A figure that is laid out and drawn. *)
Definition fine : figure := {| fig_tight_layout := Ok tt; fig_draw := Ok tt |}.

(** The object made while there is no log file. *)
Definition sample_init : NekMonitor := init (Errno FileNotFoundError) t0.

(** The object made while the log file carries a date one second before
    the epoch, as [os.path.getmtime] reports it: -1.0. *)
Definition old_init : NekMonitor := init (Returns (of_decimal true 1 0)) t0.

(** A tick that reads the sample lines, one second after [t0]. *)
Definition sample_world : world :=
  {| w_getmtime := Returns (of_decimal false 1700000000 0);
     w_time := of_decimal false 1700000001 0;
     w_open := Returns (all_read sample_lines);
     w_figure := fine |}.

(** A tick that finds no file, two seconds after [t0]. *)
Definition absent_world : world :=
  {| w_getmtime := Errno FileNotFoundError;
     w_time := of_decimal false 1700000002 0;
     w_open := Errno FileNotFoundError;
     w_figure := fine |}.

(** A tick that reads the sample lines and one more. *)
Definition grown_world : world :=
  {| w_getmtime := Returns (of_decimal false 1700000003 0);
     w_time := of_decimal false 1700000004 0;
     w_open := Returns (all_read (sample_lines ++
       ["Step      3, t= 3.0000000E-03, DT= 1.0000000E-03, C=  0.018 1.2E+01 3.9E+00"]));
     w_figure := fine |}.

(** A tick on which [os.path.getmtime] is denied and [open] succeeds. *)
Definition denied_world : world :=
  {| w_getmtime := Errno PermissionError;
     w_time := of_decimal false 1700000001 0;
     w_open := Returns (all_read sample_lines);
     w_figure := fine |}.

(** The state after a first tick that read the sample lines. *)
Definition held : NekMonitor := exec sample_init [Tick sample_world].

(** A tick that reads the cut line and nothing else. *)
Definition cut_world : world :=
  {| w_getmtime := Returns (of_decimal false 1700000003 0);
     w_time := of_decimal false 1700000004 0;
     w_open := Returns (all_read [cut_line]);
     w_figure := fine |}.

(** A line whose step number has 310 digits: an int that no float holds. *)
Definition big_line : string :=
  ("Step " ++ ones 310 ++ ", t= 1, DT= 1, C= 1 2 3")%string.

Definition big_world : world :=
  {| w_getmtime := Returns (of_decimal false 1700000005 0);
     w_time := of_decimal false 1700000006 0;
     w_open := Returns (all_read [big_line]);
     w_figure := fine |}.

(** The state after a tick that read the sample lines, a click on the
    x-axis label of the first chart, and a tick that read the big line. *)
Definition overflowed : NekMonitor :=
  exec sample_init [Tick sample_world; Pick (XLabel 0) fine; Tick big_world].

(** The state after a tick that read the sample lines and a click on
    the x-axis label of the first chart. *)
Definition clicked : NekMonitor :=
  exec sample_init [Tick sample_world; Pick (XLabel 0) fine].

(** A file of which the read yields the sample lines and then meets
    bytes that are not text. *)
Definition undecodable : reading :=
  {| r_lines := sample_lines; r_error := Some UnicodeDecodeError |}.

(** ** Lines in the format of the pattern *)

Definition space_set : list Re.item := [Re.Space].

(** The six fields of a line and the nine runs of blanks between the
    pieces of the pattern. *)
Record fields := {
  f_step : string; f_t : string; f_dt : string;
  f_c : string; f_total : string; f_wall : string
}.

Record gaps := {
  g1 : string; g2 : string; g3 : string; g4 : string; g5 : string;
  g6 : string; g7 : string; g8 : string; g9 : string
}.

Definition log_line (g : gaps) (f : fields) : string :=
  ("Step" ++ g1 g ++ f_step f ++ "," ++ g2 g ++ "t=" ++ g3 g ++ f_t f ++ "," ++
   g4 g ++ "DT=" ++ g5 g ++ f_dt f ++ "," ++ g6 g ++ "C=" ++ g7 g ++ f_c f ++
   g8 g ++ f_total f ++ g9 g ++ f_wall f)%string.

Definition groups_of (f : fields) : list string :=
  [f_step f; f_t f; f_dt f; f_c f; f_total f; f_wall f].

(** A step number of digits and five fields over the class, none empty. *)
Definition fields_ok (f : fields) : Prop :=
  run_of digit_set (f_step f) /\ run_of num_set (f_t f) /\ run_of num_set (f_dt f) /\
  run_of num_set (f_c f) /\ run_of num_set (f_total f) /\ run_of num_set (f_wall f).

(** Blanks only, and at least one after 'Step'. *)
Definition gaps_ok (g : gaps) : Prop :=
  run_of space_set (g1 g) /\ all_in space_set (g2 g) = true /\
  all_in space_set (g3 g) = true /\ all_in space_set (g4 g) = true /\
  all_in space_set (g5 g) = true /\ all_in space_set (g6 g) = true /\
  all_in space_set (g7 g) = true /\ all_in space_set (g8 g) = true /\
  all_in space_set (g9 g) = true.

(** The three last fields are apart. *)
Definition separated (g : gaps) : Prop := g8 g <> "" /\ g9 g <> "".

(** [rest] is empty or begins with a character outside [cs]. *)
Definition stops (cs : list Re.item) (rest : string) : bool :=
  match rest with
  | EmptyString => true
  | String c _ => negb (Re.mem c cs)
  end.

(** No capital S in [s]. *)
Fixpoint no_S (s : string) : bool :=
  match s with
  | EmptyString => true
  | String c s' => negb (Ascii.eqb c "S") && no_S s'
  end.

(** A match in which every run is as long as the text allows: [rest] is
    the text after the match. *)
Inductive MatchesMax : Re.regex -> string -> string -> list string -> Prop :=
| XEps rest : MatchesMax Re.Eps "" rest []
| XAtom c cs rest : Re.mem c cs = true -> MatchesMax (Re.Atom cs) (String c "") rest []
| XStar cs t rest :
    all_in cs t = true -> stops cs rest = true -> MatchesMax (Re.Star cs) t rest []
| XPlus cs c t rest :
    Re.mem c cs = true -> all_in cs t = true -> stops cs rest = true ->
    MatchesMax (Re.Plus cs) (String c t) rest []
| XGroup r t rest caps :
    MatchesMax r t rest caps -> MatchesMax (Re.Group r) t rest (caps ++ [t])
| XSeq r1 r2 t1 t2 rest c1 c2 :
    MatchesMax r1 t1 (t2 ++ rest)%string c1 -> MatchesMax r2 t2 rest c2 ->
    MatchesMax (Re.Seq r1 r2) (t1 ++ t2)%string rest (c1 ++ c2).

(** Whether the pattern matches on a line. *)
Definition matches (line : string) : bool :=
  match Re.search pattern line with
  | Some _ => true
  | None => false
  end.

(** ** The charts of six lists and five modes *)

(** What [update_plots] puts in subplot [i] in mode [mode]. *)
Definition chart_at (l : six) (i : nat) (mode : string) : option chart :=
  let '(steps, times, dts, cfls, total_times, step_times) := l in
  let by_step := String.eqb mode "step" in
  match i with
  | O =>
      Some (if by_step
            then {| c_x := Ints steps; c_y := Floats times; c_color := "#FF6F61";
                    c_title := "Solution Time vs Step";
                    c_xlabel := "Step"; c_ylabel := "Solution Time" |}
            else {| c_x := Floats times; c_y := Ints steps; c_color := "#FF6F61";
                    c_title := "Solution Time vs Step";
                    c_xlabel := "Solution Time"; c_ylabel := "Step" |})
  | S _ =>
      match nth_error [times; dts; cfls; total_times; step_times] i,
            nth_error ylabels i, nth_error colors i, nth_error titles i with
      | Some ydata, Some yl, Some color, Some title =>
          Some (if by_step
                then {| c_x := Ints steps; c_y := Floats ydata; c_color := color;
                        c_title := title; c_xlabel := "Step"; c_ylabel := yl |}
                else {| c_x := Floats times; c_y := Floats ydata; c_color := color;
                        c_title := title; c_xlabel := "Solution Time"; c_ylabel := yl |})
      | _, _, _, _ => None
      end
  end.

Definition charts (l : six) (modes : list string) : list (option chart) :=
  map (fun i => chart_at l i (nth i modes "")) (seq 0 5).

(** The fields and the gaps of the first sample line. *)
Definition sample_fields : fields :=
  {| f_step := "1"; f_t := "1.0000000E-03"; f_dt := "1.0000000E-03";
     f_c := "0.016"; f_total := "4.4296E+00"; f_wall := "4.4296E+00" |}.

Definition sample_gaps : gaps :=
  {| g1 := "      "; g2 := " "; g3 := " "; g4 := " "; g5 := " ";
     g6 := " "; g7 := "  "; g8 := " "; g9 := " " |}.

(** ** Events of a run *)

(** An event that, if it is a tick, reads the modification time [m]. *)
Definition reads (m : pyfloat) (ev : event) : Prop :=
  match ev with
  | Tick w => mod_of w = m
  | Pick _ _ => True
  end.

(** A tick on which [parse_log] raises. *)
Definition fails (w : world) : Prop := exists e, parse_log (w_open w) = Raise e.

(** ** Six sentences of the specification, as it words them *)

(** C3: a missing log file gives six empty lists, and an error of the
    operating system that a tick survives is FileNotFoundError. *)
Definition only_missing_file_handled : Prop :=
  parse_log (Errno FileNotFoundError) = Ok empty /\
  forall w self e,
    w_getmtime w = Errno e \/ w_open w = Errno e ->
    outcome_of (update_data w) self = Ok tt ->
    e = FileNotFoundError.

(** C4: with the file present [parse_log] returns. *)
Definition parse_log_never_raises : Prop :=
  forall f, exists r, parse_log (Returns f) = Ok r.

(** C5: what the lists held before a tick is a prefix of what they hold
    after it. *)
Definition tick_keeps_prefix : Prop :=
  forall self w, reachable self ->
    prefix6 (lists self) (lists (state_after (update_data w) self)).

(** C6: the six lists after a tick do not depend on what the object
    held before it. *)
Definition tick_forgets_lists : Prop :=
  forall w self1 self2, reachable self1 -> reachable self2 ->
    lists (state_after (update_data w) self1) =
    lists (state_after (update_data w) self2).

(** C10: in mode 'time' [update_plots] leaves in the first subplot the
    steps against the times. *)
Definition first_chart_swapped : Prop :=
  forall self fig, reachable self -> nth_error (x_modes self) 0 = Some "time" ->
    exists ch,
      nth_error (axes (state_after (update_plots fig) self)) 0 = Some (Some ch) /\
      c_x ch = Floats (times self) /\ c_y ch = Ints (steps self).

(** C9: a tick that finds the file missing does not set the Update
    indicator. *)
Definition missing_file_never_flashes : Prop :=
  forall self w, reachable self -> w_getmtime w = Errno FileNotFoundError ->
    ~ In (SetStyleSheet update_led (style "green")) (calls_of (update_data w) self).

(** * Properties *)

(** ** What a match of the pattern looks like *)

Module ReFacts.
Import Re.

Lemma star_sound (R : Type) cs s (k : string -> string -> option R) x :
  star cs s k = Some x ->
  exists t rest, s = (t ++ rest)%string /\ all_in cs t = true /\ k t rest = Some x.
Proof.
  revert k x. induction s as [|c s IH]; intros k x H; simpl in H.
  - exists "", "". auto.
  - destruct (mem c cs) eqn:Hc.
    + destruct (star cs s (fun t rest => k (String c t) rest)) eqn:Hs.
      * inversion H; subst. apply IH in Hs. destruct Hs as (t & rest & -> & Ht & Hk).
        exists (String c t), rest. simpl. rewrite Hc, Ht. auto.
      * exists "", (String c s). auto.
    + exists "", (String c s). auto.
Qed.

Lemma append_assoc (a b c : string) : ((a ++ b) ++ c = a ++ (b ++ c))%string.
Proof. induction a; simpl; congruence. Qed.

Lemma rmatch_sound (R : Type) r :
  forall s caps (k : string -> string -> list string -> option R) x,
    rmatch r s caps k = Some x ->
    exists t rest c,
      s = (t ++ rest)%string /\ Matches r t c /\ k t rest (caps ++ c) = Some x.
Proof.
  induction r as [|cs|cs|cs|r IH|r1 IH1 r2 IH2]; intros s caps k x H; simpl in H.
  - exists "", s, []. rewrite app_nil_r. repeat split; auto. constructor.
  - destruct s as [|c s]; [discriminate|].
    destruct (mem c cs) eqn:Hc; [|discriminate].
    exists (String c ""), s, []. rewrite app_nil_r. repeat split; auto. now constructor.
  - apply star_sound in H. destruct H as (t & rest & -> & Ht & Hk).
    exists t, rest, []. rewrite app_nil_r. repeat split; auto. now constructor.
  - destruct s as [|c s]; [discriminate|].
    destruct (mem c cs) eqn:Hc; [|discriminate].
    apply star_sound in H. destruct H as (t & rest & -> & Ht & Hk).
    exists (String c t), rest, []. rewrite app_nil_r. repeat split; auto. now constructor.
  - apply IH in H. destruct H as (t & rest & c & -> & Hm & Hk).
    exists t, rest, (c ++ [t]). rewrite app_assoc. repeat split; auto. now constructor.
  - apply IH1 in H. destruct H as (t1 & s1 & c1 & -> & Hm1 & Hk).
    apply IH2 in Hk. destruct Hk as (t2 & s2 & c2 & -> & Hm2 & Hk).
    exists (t1 ++ t2)%string, s2, (c1 ++ c2). rewrite app_assoc, append_assoc.
    repeat split; auto. now constructor.
Qed.

Lemma search_sound r s m :
  search r s = Some m -> exists t c, m = t :: c /\ Matches r t c.
Proof.
  induction s as [|a s IH]; simpl; intros H.
  - destruct (rmatch r "" [] _) eqn:Hr; [|discriminate].
    inversion H; subst. apply rmatch_sound in Hr.
    destruct Hr as (t & rest & c & _ & Hm & Hk). inversion Hk. eauto.
  - destruct (rmatch r (String a s) [] _) eqn:Hr.
    + inversion H; subst. apply rmatch_sound in Hr.
      destruct Hr as (t & rest & c & _ & Hm & Hk). inversion Hk. eauto.
    + auto.
Qed.

End ReFacts.

Import ReFacts.

Lemma all_in_cons cs c t :
  Re.mem c cs = true -> all_in cs t = true -> all_in cs (String c t) = true.
Proof. intros Hc Ht. change (Re.mem c cs && all_in cs t = true). now rewrite Hc, Ht. Qed.

Ltac invert_matches :=
  repeat match goal with
         | H : Matches (Re.Seq _ _) _ _ |- _ => inversion H; clear H; subst
         | H : Matches (Re.Group _) _ _ |- _ => inversion H; clear H; subst
         | H : Matches (Re.Plus _) _ _ |- _ => inversion H; clear H; subst
         | H : Matches (Re.Star _) _ _ |- _ => inversion H; clear H; subst
         | H : Matches (Re.Atom _) _ _ |- _ => inversion H; clear H; subst
         | H : Matches Re.Eps _ _ |- _ => inversion H; clear H; subst
         end.

(** A match of the pattern has six groups: group 1 is a non-empty run of
    digits, groups 2-6 are non-empty runs of the class 0-9 E + - . *)
Lemma pattern_groups t c :
  Matches pattern t c ->
  exists g1 g2 g3 g4 g5 g6,
    c = [g1; g2; g3; g4; g5; g6] /\ run_of digit_set g1 /\
    run_of num_set g2 /\ run_of num_set g3 /\ run_of num_set g4 /\
    run_of num_set g5 /\ run_of num_set g6.
Proof.
  intros H. cbv [pattern num Re.cat fold_right Re.lit] in H.
  invert_matches. simpl.
  do 6 eexists. split; [reflexivity|].
  repeat split; try discriminate; apply all_in_cons; assumption.
Qed.

Lemma search_groups line m :
  Re.search pattern line = Some m ->
  exists g0 g1 g2 g3 g4 g5 g6,
    m = [g0; g1; g2; g3; g4; g5; g6] /\ run_of digit_set g1 /\
    run_of num_set g2 /\ run_of num_set g3 /\ run_of num_set g4 /\
    run_of num_set g5 /\ run_of num_set g6.
Proof.
  intros H. apply search_sound in H. destruct H as (t & c & -> & Hm).
  apply pattern_groups in Hm.
  destruct Hm as (g1 & g2 & g3 & g4 & g5 & g6 & -> & H).
  exists t, g1, g2, g3, g4, g5, g6. auto.
Qed.

(** ** The conversions on the groups *)

Lemma span_digits_run g :
  all_in digit_set g = true -> span_digits g = (g, "").
Proof.
  induction g as [|c g IH]; simpl; [reflexivity|].
  unfold Re.mem; simpl. rewrite orb_false_r.
  intros H. apply andb_prop in H. destruct H as [Hc Hg].
  rewrite Hc, (IH Hg). reflexivity.
Qed.

(** [int] accepts the non-empty runs of digits within the limit. *)
Lemma int_run g :
  run_of digit_set g ->
  int g = if (String.length g <=? int_max_str_digits)%nat
          then Ok (digits_value g 0) else Raise ValueError.
Proof.
  intros [Hne Hall]. unfold int. rewrite (span_digits_run _ Hall).
  destruct g; [congruence|]. reflexivity.
Qed.

(** [float] raises nothing but ValueError. *)
Lemma float_raises s e : float s = Raise e -> e = ValueError.
Proof.
  unfold float.
  repeat match goal with
         | |- context [match ?x with _ => _ end] => destruct x
         end; congruence.
Qed.

Lemma int_raises s e : int s = Raise e -> e = ValueError.
Proof.
  unfold int.
  repeat match goal with
         | |- context [match ?x with _ => _ end] => destruct x
         end; congruence.
Qed.

Lemma parse_line_convert line acc :
  parse_line line acc =
  match Re.search pattern line with
  | Some m => (row <- convert m ;; Ok (push acc row))%outcome
  | None => Ok acc
  end.
Proof.
  destruct acc as [[[[[a0 b0] c0] d0] e0] f0]. unfold parse_line.
  destruct (Re.search pattern line) as [m|]; [|reflexivity].
  unfold convert, group_int, group_float.
  repeat match goal with
         | |- context [Re.group ?m ?i] => destruct (Re.group m i); simpl; [|reflexivity]
         | |- context [int ?g] => destruct (int g); simpl; [|reflexivity]
         | |- context [float ?g] => destruct (float g); simpl; [|reflexivity]
         end.
  reflexivity.
Qed.

(** On a match no group is missing and group 1 is a run of digits; a
    conversion that raises raises ValueError. *)
Lemma convert_match line m :
  Re.search pattern line = Some m ->
  (exists g, Re.group m 1 = Ok g /\ run_of digit_set g) /\
  (forall e, convert m = Raise e -> e = ValueError) /\
  (forall i e, (2 <= i <= 6)%nat -> group_float m i = Raise e -> e = ValueError).
Proof.
  intros H. apply search_groups in H.
  destruct H as (g0 & g1 & g2 & g3 & g4 & g5 & g6 & -> & H1 & _).
  assert (Hf : forall i e, (2 <= i <= 6)%nat ->
             group_float [g0; g1; g2; g3; g4; g5; g6] i = Raise e -> e = ValueError).
  { intros i e Hi. unfold group_float.
    assert (Hc : (i = 2 \/ i = 3 \/ i = 4 \/ i = 5 \/ i = 6)%nat) by lia.
    destruct Hc as [->|[->|[->|[->| ->]]]]; simpl; apply float_raises. }
  split; [|split]; auto.
  - exists g1. split; [reflexivity|exact H1].
  - intros e. unfold convert.
    destruct (group_int [g0; g1; g2; g3; g4; g5; g6] 1) as [n|e1] eqn:E1; simpl.
    2:{ intros X; inversion X; subst. unfold group_int in E1. simpl in E1.
        eapply int_raises; eauto. }
    repeat match goal with
           | |- context [group_float ?m ?i] =>
               let E := fresh "E" in
               destruct (group_float m i) eqn:E; simpl;
               [|intros X; inversion X; subst; eapply Hf; [|exact E]; lia]
           end.
    discriminate.
Qed.

Lemma parse_line_raises line acc e :
  parse_line line acc = Raise e -> e = ValueError.
Proof.
  rewrite parse_line_convert.
  destruct (Re.search pattern line) as [m|] eqn:Hs; [|discriminate].
  destruct (convert m) as [row|e'] eqn:Hc; simpl; [discriminate|].
  intros X; inversion X; subst.
  destruct (convert_match _ Hs) as (_ & Hr & _). now apply Hr.
Qed.

Lemma parse_lines_raises lines : forall acc e,
  parse_lines lines acc = Raise e -> e = ValueError.
Proof.
  induction lines as [|line rest IH]; intros acc e; simpl; [discriminate|].
  destruct (parse_line line acc) as [acc'|e'] eqn:Hl; simpl.
  - apply IH.
  - intros X; inversion X; subst. eapply parse_line_raises; eauto.
Qed.

(** With the file open, [parse_log] is the loop and its end. *)
Lemma parse_log_open f :
  parse_log (Returns f) =
  (acc <- parse_lines (r_lines f) empty ;; loop_end (r_error f) acc)%outcome.
Proof. reflexivity. Qed.

(** On a file read to its end, [parse_log] is the loop. *)
Lemma parse_log_all_read lines :
  parse_log (Returns (all_read lines)) = parse_lines lines empty.
Proof.
  rewrite parse_log_open. cbn [all_read r_lines r_error].
  destruct (parse_lines lines empty); reflexivity.
Qed.

Lemma loop_end_ok err acc r : loop_end err acc = Ok r -> r = acc.
Proof.
  unfold loop_end. destruct err as [[[]| | | |]|]; intros H; inversion H; reflexivity.
Qed.

(** The read ends the loop without an exception that leaves it. *)
Lemma loop_end_returns err acc :
  (exists r, loop_end err acc = Ok r) <->
  err = None \/ err = Some (OSError FileNotFoundError).
Proof.
  unfold loop_end. destruct err as [[[]| | | |]|]; split;
    try (intros [r H]; discriminate H);
    try (intros [H|H]; discriminate H); eauto.
Qed.

Lemma loop_end_raises err acc e : loop_end err acc = Raise e -> err = Some e.
Proof.
  unfold loop_end. destruct err as [[[]| | | |]|]; intros H; inversion H; reflexivity.
Qed.

(** ** Reasoning on methods *)

Lemma outcome_of_bind A B (m : M A) (f : A -> M B) s :
  outcome_of (bind m f) s =
  match outcome_of m s with
  | Ok a => outcome_of (f a) (state_after m s)
  | Raise e => Raise e
  end.
Proof.
  unfold outcome_of, state_after, bind.
  destruct (m s) as [[[a|e] s1] c1]; simpl; [|reflexivity].
  destruct (f a s1) as [[r s2] c2]; reflexivity.
Qed.

Lemma state_after_bind A B (m : M A) (f : A -> M B) s :
  state_after (bind m f) s =
  match outcome_of m s with
  | Ok a => state_after (f a) (state_after m s)
  | Raise _ => state_after m s
  end.
Proof.
  unfold outcome_of, state_after, bind.
  destruct (m s) as [[[a|e] s1] c1]; simpl; [|reflexivity].
  destruct (f a s1) as [[r s2] c2]; reflexivity.
Qed.

Lemma calls_of_bind A B (m : M A) (f : A -> M B) s :
  calls_of (bind m f) s =
  calls_of m s ++ match outcome_of m s with
                  | Ok a => calls_of (f a) (state_after m s)
                  | Raise _ => []
                  end.
Proof.
  unfold outcome_of, state_after, calls_of, bind.
  destruct (m s) as [[[a|e] s1] c1]; simpl; [|now rewrite app_nil_r].
  destruct (f a s1) as [[r s2] c2]; reflexivity.
Qed.

Section Frame.
Context {B : Type} (proj : NekMonitor -> B) (P : call -> Prop).

Lemma stable_ret A (a : A) : stable proj (ret a).
Proof. intros s; reflexivity. Qed.
Lemma stable_get : stable proj get.
Proof. intros s; reflexivity. Qed.
Lemma stable_emit c : stable proj (emit c).
Proof. intros s; reflexivity. Qed.
Lemma stable_lift A (o : outcome A) : stable proj (lift o).
Proof. intros s; reflexivity. Qed.
Lemma stable_modify f : (forall s, proj (f s) = proj s) -> stable proj (modify f).
Proof. intros H s; apply H. Qed.
Lemma stable_bind A C (m : M A) (f : A -> M C) :
  stable proj m -> (forall a, stable proj (f a)) -> stable proj (bind m f).
Proof.
  intros Hm Hf s. rewrite state_after_bind.
  destruct (outcome_of m s); [rewrite Hf|]; apply Hm.
Qed.
Lemma stable_for_each A (l : list A) body :
  (forall x, stable proj (body x)) -> stable proj (for_each l body).
Proof.
  intros Hb. induction l; simpl; [apply stable_ret|].
  apply stable_bind; auto.
Qed.

Lemma calls_in_ret A (a : A) : calls_in P (ret a).
Proof. intros s c []. Qed.
Lemma calls_in_get : calls_in P get.
Proof. intros s c []. Qed.
Lemma calls_in_modify f : calls_in P (modify f).
Proof. intros s c []. Qed.
Lemma calls_in_lift A (o : outcome A) : calls_in P (lift o).
Proof. intros s c []. Qed.
Lemma calls_in_emit c : P c -> calls_in P (emit c).
Proof. intros H s c' [<-|[]]. exact H. Qed.
Lemma calls_in_bind A C (m : M A) (f : A -> M C) :
  calls_in P m -> (forall a, calls_in P (f a)) -> calls_in P (bind m f).
Proof.
  intros Hm Hf s c. rewrite calls_of_bind. intros H. apply in_app_or in H.
  destruct H as [H|H]; [eapply Hm; eauto|].
  destruct (outcome_of m s); [eapply Hf; eauto|destruct H].
Qed.
Lemma calls_in_for_each A (l : list A) body :
  (forall x, calls_in P (body x)) -> calls_in P (for_each l body).
Proof.
  intros Hb. induction l; simpl; [apply calls_in_ret|].
  apply calls_in_bind; auto.
Qed.
End Frame.

Ltac frame :=
  repeat first
    [ apply stable_ret | apply stable_get | apply stable_emit | apply stable_lift
    | apply stable_modify; intros []; reflexivity
    | apply stable_for_each; intros ?
    | apply stable_bind; [|intros ?]
    | apply calls_in_ret | apply calls_in_get | apply calls_in_modify | apply calls_in_lift
    | apply calls_in_emit; simpl; tauto
    | apply calls_in_for_each; intros ?
    | apply calls_in_bind; [|intros ?]
    | match goal with
      | |- context [if ?b then _ else _] => destruct b
      | |- context [let '(_, _) := ?p in _] => destruct p
      | |- context [match ?p with Some _ => _ | None => _ end] => destruct p
      | |- context [match ?n with O => _ | S _ => _ end] => destruct n
      end ].

Lemma update_plots_calls fig : calls_in drawing (update_plots fig).
Proof. unfold update_plots, redraw, drawing. frame. Qed.

Lemma update_plots_lists fig : stable lists (update_plots fig).
Proof. unfold update_plots, redraw. frame. Qed.

Lemma update_plots_x_modes fig : stable x_modes (update_plots fig).
Proof. unfold update_plots, redraw. frame. Qed.

Lemma update_plots_last_update_time fig : stable last_update_time (update_plots fig).
Proof. unfold update_plots, redraw. frame. Qed.

Lemma update_plots_last_file_mod fig : stable last_file_mod (update_plots fig).
Proof. unfold update_plots, redraw. frame. Qed.

(** ** The shape of a tick *)

Lemma update_data_unfold w self :
  update_data w self =
  match parse_log (w_open w) with
  | Raise e => (Raise e, clocked w self, led_calls w self)
  | Ok r =>
      let '(o, s2, cs2) := update_plots (w_figure w) (set_lists r (clocked w self)) in
      (o, s2, led_calls w self ++ cs2)
  end.
Proof.
  unfold update_data, clocked, led_calls, jammed, elapsed, newer, mod_of.
  unfold bind at 1. unfold get at 1.
  destruct self as [lfm lut a b c d e f xm lt ax]. cbn [last_file_mod last_update_time].
  set (md := match w_getmtime w with Returns m => m | Errno _ => zero end).
  destruct (SFltb lfm md);
    destruct (SFltb jam_threshold (SFsub prec emax (w_time w) lut)) eqn:Hj;
    cbn -[update_plots parse_log jam_threshold SFsub]; rewrite ?Hj;
    cbn -[update_plots parse_log jam_threshold SFsub];
    destruct (parse_log (w_open w)) as [r|x];
    cbn -[update_plots parse_log jam_threshold SFsub]; try reflexivity;
    match goal with
    | |- context [update_plots ?g ?s] => destruct (update_plots g s) as [[o s2] cs2]
    end;
    reflexivity.
Qed.

(** ** Redrawing *)

Ltac five l :=
  let H := fresh in
  intro H;
  do 5 (destruct l as [|? l]; [discriminate H|]);
  destruct l; [clear H|discriminate H].

(** Runs the rounds of [update_plots] on a state whose lists have the
    lengths the hypotheses give. *)
Ltac run_plots :=
  repeat (cbv -[String.eqb Nat.eqb series_length forallb fits];
          repeat match goal with
                 | H : series_length _ = series_length _ |- _ => rewrite H
                 | H : forallb fits _ = _ |- _ => rewrite H
                 end;
          rewrite ?Nat.eqb_refl;
          try match goal with
              | |- context [String.eqb ?m "step"] =>
                  let E := fresh "E" in destruct (String.eqb m "step") eqn:E
              end).

Ltac same_lengths H :=
  unfold lists in H; cbn [steps times dts cfls total_times step_times] in H;
  match type of H with
  | eq_len (?a, ?b, ?c, ?d, ?e, ?f) =>
      let Hb := fresh in let Hc := fresh in let Hd := fresh in
      let He := fresh in let Hf := fresh in
      destruct H as (Hb & Hc & Hd & He & Hf);
      change (series_length (Floats b) = series_length (Ints a)) in Hb;
      change (series_length (Floats c) = series_length (Ints a)) in Hc;
      change (series_length (Floats d) = series_length (Ints a)) in Hd;
      change (series_length (Floats e) = series_length (Ints a)) in He;
      change (series_length (Floats f) = series_length (Ints a)) in Hf
  end.

(** [update_plots] with five modes for the five subplots and six lists
    of one length. When float holds every step, the five charts are
    drawn and the five labels registered, and the outcome is that of the
    layout and the drawing of the figure. When it does not, [ax.plot]
    raises in the first round: the first subplot is cleared, the others
    are as they were, and no label is registered. *)
Lemma update_plots_unfold fig self :
  List.length (x_modes self) = 5%nat -> List.length (axes self) = 5%nat ->
  eq_len (lists self) ->
  update_plots fig self =
  if forallb fits (steps self)
  then (match fig_tight_layout fig with
        | Ok _ => fig_draw fig
        | Raise e => Raise e
        end,
        set_label_texts xlabels (set_axes (charts (lists self) (x_modes self)) self),
        TightLayout :: match fig_tight_layout fig with
                       | Ok _ => [CanvasDraw]
                       | Raise _ => []
                       end)
  else (Raise OverflowError,
        set_label_texts [] (set_axes (set_nth (axes self) 0 None) self),
        []).
Proof.
  destruct self as [lfm lut a b c d e f xm lt ax].
  cbn [x_modes axes lists steps times dts cfls total_times step_times].
  five xm. five ax. intros HL. same_lengths HL.
  destruct fig as [layout drawn].
  destruct (forallb fits a) eqn:Hfit;
    unfold update_plots, redraw, charts, chart_at, plot, plottable;
    run_plots;
    destruct layout as [[]|]; try reflexivity;
    destruct drawn as [[]|]; reflexivity.
Qed.

Lemma update_data_state w self :
  state_after (update_data w) self =
  match parse_log (w_open w) with
  | Raise _ => clocked w self
  | Ok r => state_after (update_plots (w_figure w)) (set_lists r (clocked w self))
  end.
Proof.
  unfold state_after. rewrite update_data_unfold.
  destruct (parse_log (w_open w)); [|reflexivity].
  destruct (update_plots _ _) as [[o s2] cs2]; reflexivity.
Qed.

Lemma update_data_calls w self :
  calls_of (update_data w) self =
  led_calls w self ++
  match parse_log (w_open w) with
  | Raise e => []
  | Ok r => calls_of (update_plots (w_figure w)) (set_lists r (clocked w self))
  end.
Proof.
  unfold calls_of. rewrite update_data_unfold.
  destruct (parse_log (w_open w)); [|now rewrite app_nil_r].
  destruct (update_plots _ _) as [[o s2] cs2]; reflexivity.
Qed.

Lemma update_data_outcome w self :
  outcome_of (update_data w) self =
  match parse_log (w_open w) with
  | Raise e => Raise e
  | Ok r => outcome_of (update_plots (w_figure w)) (set_lists r (clocked w self))
  end.
Proof.
  unfold outcome_of. rewrite update_data_unfold.
  destruct (parse_log (w_open w)); [|reflexivity].
  destruct (update_plots _ _) as [[o s2] cs2]; reflexivity.
Qed.

(** ** The six lists *)

Lemma push_eq_len acc row : eq_len acc -> eq_len (push acc row).
Proof.
  destruct acc as [[[[[a0 b0] c0] d0] e0] f0], row as [[[[[a b] c] d] e] f].
  simpl. rewrite !length_app. simpl. lia.
Qed.

Lemma parse_lines_eq_len lines : forall acc r,
  parse_lines lines acc = Ok r -> eq_len acc -> eq_len r.
Proof.
  induction lines as [|line rest IH]; intros acc r; simpl.
  - intros H; inversion H; subst; auto.
  - rewrite parse_line_convert.
    destruct (Re.search pattern line) as [m|]; simpl; [|apply IH].
    destruct (convert m) as [row|]; simpl; [|discriminate].
    intros H Hacc. eapply IH; eauto. now apply push_eq_len.
Qed.

Lemma empty_eq_len : eq_len empty.
Proof. simpl. auto. Qed.

Lemma parse_log_eq_len file r : parse_log file = Ok r -> eq_len r.
Proof.
  destruct file as [f|e].
  - rewrite parse_log_open.
    destruct (parse_lines (r_lines f) empty) as [acc|] eqn:H; cbn [obind]; [|discriminate].
    intros E. apply loop_end_ok in E. subst.
    eapply parse_lines_eq_len; eauto. apply empty_eq_len.
  - unfold parse_log; simpl. destruct e; intros H; inversion H; apply empty_eq_len.
Qed.

(** ** What holds in every state of a run *)

Lemma length_set_nth A (l : list A) i v : List.length (set_nth l i v) = List.length l.
Proof. revert i; induction l; destruct i; simpl; auto. Qed.

Lemma nth_error_set_nth_eq A (l : list A) i v :
  (i < List.length l)%nat -> nth_error (set_nth l i v) i = Some v.
Proof.
  revert i; induction l; destruct i; simpl; intros H; try lia; auto.
  apply IHl. lia.
Qed.

Lemma nth_error_set_nth_ne A (l : list A) i j v :
  i <> j -> nth_error (set_nth l i v) j = nth_error l j.
Proof.
  revert i j; induction l; destruct i, j; simpl; intros H; try congruence; auto.
Qed.

Lemma set_nth_same A (l : list A) i v :
  nth_error l i = Some v -> set_nth l i v = l.
Proof.
  revert i; induction l; destruct i; simpl; intros H; try congruence.
  f_equal; auto.
Qed.

Lemma set_nth_twice A (l : list A) i u v :
  set_nth (set_nth l i u) i v = set_nth l i v.
Proof. revert i; induction l; destruct i; simpl; congruence. Qed.

Lemma Forall_set_nth A (P : A -> Prop) (l : list A) i v :
  Forall P l -> P v -> Forall P (set_nth l i v).
Proof.
  intros Hl Hv. revert i. induction Hl; destruct i; simpl; auto.
Qed.

Lemma index_of_xlabel i : (i < 5)%nat -> index_of (XLabel i) xlabels = Some i.
Proof.
  intros H. do 5 (destruct i as [|i]; [reflexivity|]). lia.
Qed.

Lemma init_wf getmtime now : wf (init getmtime now).
Proof.
  split; simpl; auto; try discriminate.
  repeat constructor; now left.
Qed.

Lemma clocked_fields w self :
  x_modes (clocked w self) = x_modes self /\
  axes (clocked w self) = axes self /\
  label_texts (clocked w self) = label_texts self /\
  lists (clocked w self) = lists self.
Proof. unfold clocked. destruct (newer w self), self; repeat split. Qed.

Lemma set_lists_fields r s :
  x_modes (set_lists r s) = x_modes s /\ axes (set_lists r s) = axes s /\
  label_texts (set_lists r s) = label_texts s.
Proof. destruct r as [[[[[? ?] ?] ?] ?] ?]. repeat split. Qed.

Lemma lists_set_lists r s : lists (set_lists r s) = r.
Proof. destruct r as [[[[[a b] c] d] e] f]. reflexivity. Qed.

Lemma steps_lists s1 s2 : lists s1 = lists s2 -> steps s1 = steps s2.
Proof. unfold lists. intros H. now inversion H. Qed.

Lemma drawn_fields ax lt s :
  lists (set_label_texts lt (set_axes ax s)) = lists s /\
  x_modes (set_label_texts lt (set_axes ax s)) = x_modes s /\
  axes (set_label_texts lt (set_axes ax s)) = ax /\
  label_texts (set_label_texts lt (set_axes ax s)) = lt.
Proof. destruct s; repeat split. Qed.

(** The state [update_plots] leaves. *)
Lemma update_plots_state fig self :
  List.length (x_modes self) = 5%nat -> List.length (axes self) = 5%nat ->
  eq_len (lists self) ->
  state_after (update_plots fig) self =
  if forallb fits (steps self)
  then set_label_texts xlabels (set_axes (charts (lists self) (x_modes self)) self)
  else set_label_texts [] (set_axes (set_nth (axes self) 0 None) self).
Proof.
  intros Hx Ha Hl. unfold state_after. rewrite update_plots_unfold by assumption.
  destruct (forallb fits (steps self)); reflexivity.
Qed.

(** After [update_plots] the state is one of a run, if the modes, the
    subplots and the lists were. *)
Lemma update_plots_wf fig self :
  List.length (x_modes self) = 5%nat -> Forall is_mode (x_modes self) ->
  List.length (axes self) = 5%nat -> eq_len (lists self) ->
  wf (state_after (update_plots fig) self).
Proof.
  intros Hx Hm Ha Hl. rewrite update_plots_state by assumption.
  destruct (forallb fits (steps self)) eqn:E.
  - destruct (drawn_fields (charts (lists self) (x_modes self)) xlabels self)
      as (El & Ex & Eax & Elt).
    split; rewrite ?Ex, ?Eax, ?Elt, ?El; auto.
    all: intros _; rewrite (steps_lists El); exact E.
  - destruct (drawn_fields (set_nth (axes self) 0 None) [] self) as (El & Ex & Eax & Elt).
    split; rewrite ?Ex, ?Eax, ?Elt, ?El; auto; try discriminate.
    all: now rewrite length_set_nth.
Qed.

Lemma update_data_wf w self : wf self -> wf (state_after (update_data w) self).
Proof.
  intros [H1 H2 H3 H4 H5 H6]. rewrite update_data_state.
  destruct (clocked_fields w self) as (Cx & Ca & Cl & Cs).
  destruct (parse_log (w_open w)) as [r|e] eqn:Hp.
  - destruct (set_lists_fields r (clocked w self)) as (Sx & Sa & _).
    apply update_plots_wf; try congruence.
    rewrite lists_set_lists. eapply parse_log_eq_len; eauto.
  - split; try congruence.
    rewrite Cl, (steps_lists Cs). exact H5.
Qed.

Lemma on_label_click_state a fig self :
  state_after (on_label_click a fig) self =
  match index_of a (label_texts self) with
  | Some idx =>
      match nth_error (x_modes self) idx with
      | Some old =>
          state_after (update_plots fig)
            (set_x_modes (set_nth (x_modes self) idx
                            (if String.eqb old "step" then "time" else "step")) self)
      | None => self
      end
  | None => self
  end.
Proof.
  unfold on_label_click. rewrite state_after_bind. cbn [outcome_of get fst state_after snd].
  change (state_after get self) with self.
  destruct (index_of a (label_texts self)) as [idx|]; [|reflexivity].
  rewrite state_after_bind. unfold index.
  destruct (nth_error (x_modes self) idx) as [old|]; [|reflexivity].
  change (outcome_of (lift (Ok old)) self) with (Ok old).
  cbv iota beta. rewrite state_after_bind. reflexivity.
Qed.

Lemma set_x_modes_fields v s :
  x_modes (set_x_modes v s) = v /\ axes (set_x_modes v s) = axes s /\
  label_texts (set_x_modes v s) = label_texts s /\ lists (set_x_modes v s) = lists s.
Proof. destruct s; repeat split. Qed.

Lemma on_label_click_wf a fig self :
  wf self -> wf (state_after (on_label_click a fig) self).
Proof.
  intros W. rewrite on_label_click_state.
  destruct (index_of a (label_texts self)) as [idx|]; [|exact W].
  destruct (nth_error (x_modes self) idx) as [old|]; [|exact W].
  destruct W as [H1 H2 H3 H4 H5 H6].
  set (v := if String.eqb old "step" then "time" else "step").
  destruct (set_x_modes_fields (set_nth (x_modes self) idx v) self) as (Hx & Ha & _ & Hl).
  apply update_plots_wf.
  - rewrite Hx, length_set_nth. exact H1.
  - rewrite Hx. apply Forall_set_nth; auto.
    unfold v, is_mode. destruct (String.eqb old "step"); auto.
  - congruence.
  - rewrite Hl. exact H6.
Qed.

Lemma exec_wf evs : forall self, wf self -> wf (exec self evs).
Proof.
  induction evs as [|ev evs IH]; intros self W; simpl; [exact W|].
  apply IH. destruct ev; [apply update_data_wf|apply on_label_click_wf]; exact W.
Qed.

Lemma reachable_wf self : reachable self -> wf self.
Proof.
  intros (g & now & evs & ->). apply exec_wf, init_wf.
Qed.

Lemma reachable_step ev self : reachable self -> reachable (state_after (handle ev) self).
Proof.
  intros (g & now & evs & ->). exists g, now, (evs ++ [ev]).
  generalize (init g now). induction evs; intros s; simpl; auto.
Qed.

(** ** The result of [parse_log], line by line *)

Lemma convert_ok m a b c d e f :
  convert m = Ok (a, b, c, d, e, f) ->
  group_int m 1 = Ok a /\ group_float m 2 = Ok b /\ group_float m 3 = Ok c /\
  group_float m 4 = Ok d /\ group_float m 5 = Ok e /\ group_float m 6 = Ok f.
Proof.
  unfold convert.
  destruct (group_int m 1); simpl; [|discriminate].
  destruct (group_float m 2); simpl; [|discriminate].
  destruct (group_float m 3); simpl; [|discriminate].
  destruct (group_float m 4); simpl; [|discriminate].
  destruct (group_float m 5); simpl; [|discriminate].
  destruct (group_float m 6); simpl; [|discriminate].
  intros H; inversion H; subst. repeat split.
Qed.

Lemma parse_lines_columns lines :
  forall a0 b0 c0 d0 e0 f0 a b c d e f,
    parse_lines lines (a0, b0, c0, d0, e0, f0) = Ok (a, b, c, d, e, f) ->
    let ms := matches_of lines in
    map Ok a = map Ok a0 ++ map (fun m => group_int m 1) ms /\
    map Ok b = map Ok b0 ++ map (fun m => group_float m 2) ms /\
    map Ok c = map Ok c0 ++ map (fun m => group_float m 3) ms /\
    map Ok d = map Ok d0 ++ map (fun m => group_float m 4) ms /\
    map Ok e = map Ok e0 ++ map (fun m => group_float m 5) ms /\
    map Ok f = map Ok f0 ++ map (fun m => group_float m 6) ms.
Proof.
  induction lines as [|line rest IH]; intros a0 b0 c0 d0 e0 f0 a b c d e f;
    unfold matches_of; cbn [parse_lines flat_map].
  - intros H; inversion H; subst. simpl. rewrite !app_nil_r. repeat split.
  - fold (matches_of rest). rewrite parse_line_convert.
    destruct (Re.search pattern line) as [m|]; [|apply IH].
    destruct (convert m) as [[[[[[x1 x2] x3] x4] x5] x6]|] eqn:Hc; [|discriminate].
    cbn [obind push]. intros H. apply IH in H. apply convert_ok in Hc.
    destruct Hc as (E1 & E2 & E3 & E4 & E5 & E6).
    cbv zeta in H |- *. cbn [app map]. rewrite E1, E2, E3, E4, E5, E6.
    rewrite !map_app in H. simpl in H. rewrite <- !app_assoc in H. exact H.
Qed.

Lemma app6_empty r : app6 empty r = r.
Proof. destruct r as [[[[[a b] c] d] e] f]. reflexivity. Qed.

Lemma app6_push acc r rows :
  app6 (push acc r) (columns rows) = app6 acc (columns (r :: rows)).
Proof.
  destruct acc as [[[[[a0 b0] c0] d0] e0] f0], r as [[[[[a b] c] d] e] f].
  unfold columns. cbn [push app6 map]. now rewrite <- !app_assoc.
Qed.

Lemma parse_lines_traverse lines : forall acc,
  parse_lines lines acc =
  (rows <- traverse convert (matches_of lines) ;; Ok (app6 acc (columns rows)))%outcome.
Proof.
  induction lines as [|line rest IH]; intros acc;
    unfold matches_of; cbn [parse_lines flat_map].
  - destruct acc as [[[[[a0 b0] c0] d0] e0] f0]. cbn. now rewrite !app_nil_r.
  - fold (matches_of rest). rewrite parse_line_convert.
    destruct (Re.search pattern line) as [m|]; cbn [app traverse obind]; [|apply IH].
    destruct (convert m) as [r|e]; cbn [obind]; [|reflexivity].
    rewrite IH. destruct (traverse convert (matches_of rest)); cbn [obind]; [|reflexivity].
    now rewrite app6_push.
Qed.

Lemma parse_log_traverse file :
  parse_log (Returns file) =
  (rows <- traverse convert (matches_of (r_lines file)) ;;
   loop_end (r_error file) (columns rows))%outcome.
Proof.
  rewrite parse_log_open, parse_lines_traverse.
  destruct (traverse convert (matches_of (r_lines file))); cbn [obind]; [|reflexivity].
  now rewrite app6_empty.
Qed.

(** C1. With the log file open, [parse_log] converts the matches of the
    lines on which the pattern matches, in the order of these lines, and
    returns the six columns of what it converted, unless a conversion
    raises or the read of the file does. So the six lists it returns
    hold one element each for every such line: [steps] holds [int] of
    group 1, and [times], [dts], [cfls], [total_times], [step_times] hold
    [float] of groups 2, 3, 4, 5 and 6. A line on which the pattern does
    not match adds nothing to any list. *)
Theorem parse_log_elements file :
  parse_log (Returns file) =
    (rows <- traverse convert (matches_of (r_lines file)) ;;
     loop_end (r_error file) (columns rows))%outcome /\
  (forall lines,
     parse_log (Returns (all_read lines)) =
       (rows <- traverse convert (matches_of lines) ;; Ok (columns rows))%outcome) /\
  forall a b c d e f,
    parse_log (Returns file) = Ok (a, b, c, d, e, f) ->
    let ms := matches_of (r_lines file) in
    map Ok a = map (fun m => group_int m 1) ms /\
    map Ok b = map (fun m => group_float m 2) ms /\
    map Ok c = map (fun m => group_float m 3) ms /\
    map Ok d = map (fun m => group_float m 4) ms /\
    map Ok e = map (fun m => group_float m 5) ms /\
    map Ok f = map (fun m => group_float m 6) ms.
Proof.
  split; [|split].
  - apply parse_log_traverse.
  - intros lines. rewrite parse_log_traverse. reflexivity.
  - rewrite parse_log_open. intros a b c d e f H.
    destruct (parse_lines (r_lines file) empty) as [acc|] eqn:Hp; cbn [obind] in H;
      [|discriminate].
    apply loop_end_ok in H. subst acc. unfold empty in Hp.
    exact (parse_lines_columns _ _ _ _ _ _ _ Hp).
Qed.

Lemma parse_log_elements_witness :
  exists a b c d e f,
    parse_log (Returns (all_read sample_lines)) = Ok (a, b, c, d, e, f) /\
    List.length a = 2%nat /\
    map Ok a = map (fun m => group_int m 1) (matches_of sample_lines) /\
    map Ok b = map (fun m => group_float m 2) (matches_of sample_lines) /\
    map Ok c = map (fun m => group_float m 3) (matches_of sample_lines) /\
    map Ok d = map (fun m => group_float m 4) (matches_of sample_lines) /\
    map Ok e = map (fun m => group_float m 5) (matches_of sample_lines) /\
    map Ok f = map (fun m => group_float m 6) (matches_of sample_lines).
Proof.
  do 6 eexists. split; [vm_compute; reflexivity|].
  split; [reflexivity|].
  apply (proj2 (proj2 (parse_log_elements (all_read sample_lines)))).
  vm_compute. reflexivity.
Defined.

Lemma sample_init_reachable : reachable sample_init.
Proof. exists (Errno FileNotFoundError), t0, []. reflexivity. Qed.

(** C2. The six lists [parse_log] returns have the same length, for every
    outcome of opening the file (an absent file too), and in a run of the
    program the six lists of the object have the same length after every
    call of [update_data]. *)
Theorem six_lists_same_length :
  (forall file r, parse_log file = Ok r -> eq_len r) /\
  (forall self w, reachable self -> eq_len (lists (state_after (update_data w) self))).
Proof.
  split.
  - exact parse_log_eq_len.
  - intros self w H. apply wf_lists, update_data_wf, reachable_wf, H.
Qed.

Lemma six_lists_same_length_witness :
  (parse_log (Errno FileNotFoundError) = Ok empty /\ eq_len empty) /\
  (reachable sample_init /\
   eq_len (lists (state_after (update_data sample_world) sample_init))).
Proof.
  split; split.
  - reflexivity.
  - apply (proj1 six_lists_same_length (Errno FileNotFoundError)). reflexivity.
  - exact sample_init_reachable.
  - apply (proj2 six_lists_same_length sample_init sample_world).
    exact sample_init_reachable.
Defined.

(** ** When [parse_log] returns *)

Lemma convert_returns m :
  (exists row, convert m = Ok row) <-> int_ok m /\ floats_ok m.
Proof.
  split.
  - intros ([[[[[a b] c] d] e] f] & Hc). apply convert_ok in Hc.
    destruct Hc as (E1 & E2 & E3 & E4 & E5 & E6). split; [exists a; exact E1|].
    intros i Hi.
    assert (Hc : (i = 2 \/ i = 3 \/ i = 4 \/ i = 5 \/ i = 6)%nat) by lia.
    destruct Hc as [->|[->|[->|[->| ->]]]]; eauto.
  - intros [[n Hn] H]. unfold convert. rewrite Hn.
    destruct (H 2%nat) as [b ->]; [lia|].
    destruct (H 3%nat) as [c ->]; [lia|].
    destruct (H 4%nat) as [d ->]; [lia|].
    destruct (H 5%nat) as [e ->]; [lia|].
    destruct (H 6%nat) as [f ->]; [lia|].
    simpl. eauto.
Qed.

Lemma parse_lines_returns lines : forall acc,
  (exists r, parse_lines lines acc = Ok r) <->
  (forall line m, In line lines -> Re.search pattern line = Some m ->
     int_ok m /\ floats_ok m).
Proof.
  induction lines as [|line rest IH]; intros acc; cbn [parse_lines].
  - split; [intros _ ? ? []|eauto].
  - rewrite parse_line_convert. split.
    + intros [r H] l m [<-|Hin] Hs.
      * rewrite Hs in H. apply convert_returns.
        destruct (convert m); [eauto|discriminate].
      * destruct (Re.search pattern line) as [m'|].
        -- destruct (convert m'); [|discriminate]. simpl in H.
           eapply (proj1 (IH _)); eauto.
        -- simpl in H. eapply (proj1 (IH _)); eauto.
    + intros H. destruct (Re.search pattern line) as [m|] eqn:Hs.
      * destruct (proj2 (convert_returns m)) as [row ->]; [eapply H; simpl; eauto|].
        simpl. apply IH. intros l m' Hin. apply H. now right.
      * simpl. apply IH. intros l m' Hin. apply H. now right.
Qed.

(** A step number of 4301 digits. *)
Lemma long_step_raises :
  int (ones 4301) = Raise ValueError /\
  parse_log (Returns (all_read
    [("Step " ++ ones 4301 ++ ", t= 1, DT= 1, C= 1 2 3")%string])) = Raise ValueError.
Proof. vm_compute. auto. Qed.

Lemma cut_line_raises :
  Re.search pattern cut_line =
    Some [cut_line; "2"; "2.0000000E-03"; "1.0000000E-03"; "0.017"; "8.5E+00"; "4.1E"] /\
  float "4.1E" = Raise ValueError /\
  parse_log (Returns (all_read [cut_line])) = Raise ValueError.
Proof. vm_compute. auto. Qed.

(** The read of a file that holds bytes that are no text. *)
Lemma undecodable_raises : parse_log (Returns undecodable) = Raise UnicodeDecodeError.
Proof. vm_compute. reflexivity. Qed.

(** C4, counterexample: the pattern matches the cut line, [float] refuses
    its group 6, and [parse_log] raises ValueError. *)
Lemma parse_log_never_raises_counterexample : ~ parse_log_never_raises.
Proof.
  intros H. destruct (H (all_read [cut_line])) as [r Hr].
  destruct cut_line_raises as (_ & _ & E). rewrite E in Hr. discriminate.
Qed.

(** C4, amended. With the log file open: on every line on which the
    pattern matches, [int] accepts group 1 exactly when it has at most
    [int_max_str_digits] digits, the limit of CPython when nothing sets
    another. [parse_log] returns six lists exactly when, on every such
    line that the file yields, [int] accepts group 1 and [float] accepts
    groups 2-6, and the read of the file raises nothing that leaves the
    loop: it goes to the end of the file (or raises FileNotFoundError,
    which the handler of [parse_log] would catch). When [parse_log] does
    not return, it raises the ValueError of a conversion or the
    exception of the read; with lines that all convert, an exception of
    the read other than FileNotFoundError, such as UnicodeDecodeError on
    bytes that are no text, is what it raises. *)
Theorem parse_log_returns_iff file :
  (forall line m, In line (r_lines file) -> Re.search pattern line = Some m ->
     exists g, Re.group m 1 = Ok g /\
       (int_ok m <-> (String.length g <= int_max_str_digits)%nat)) /\
  ((exists r, parse_log (Returns file) = Ok r) <->
   (forall line m, In line (r_lines file) -> Re.search pattern line = Some m ->
      int_ok m /\ floats_ok m) /\
   (r_error file = None \/ r_error file = Some (OSError FileNotFoundError))) /\
  (forall e, parse_log (Returns file) = Raise e ->
     e = ValueError \/ r_error file = Some e) /\
  (forall e,
     (forall line m, In line (r_lines file) -> Re.search pattern line = Some m ->
        int_ok m /\ floats_ok m) ->
     r_error file = Some e -> e <> OSError FileNotFoundError ->
     parse_log (Returns file) = Raise e).
Proof.
  split; [|split; [|split]].
  - intros line m _ Hs. destruct (convert_match _ Hs) as ((g & Hg & Hr) & _ & _).
    exists g. split; [exact Hg|]. unfold int_ok, group_int. rewrite Hg. cbn [obind].
    rewrite (int_run Hr).
    destruct (String.length g <=? int_max_str_digits)%nat eqn:E.
    + apply Nat.leb_le in E. split; eauto.
    + apply Nat.leb_gt in E. split; [intros [n Hn]; discriminate|lia].
  - rewrite parse_log_open. split.
    + intros [r H].
      destruct (parse_lines (r_lines file) empty) as [acc|] eqn:Hp; cbn [obind] in H;
        [|discriminate].
      split.
      * apply (proj1 (parse_lines_returns (r_lines file) empty)). eauto.
      * apply (proj1 (loop_end_returns (r_error file) acc)). eauto.
    + intros [Hl He].
      destruct (proj2 (parse_lines_returns (r_lines file) empty) Hl) as [acc ->].
      cbn [obind]. apply loop_end_returns. exact He.
  - intros e. rewrite parse_log_open.
    destruct (parse_lines (r_lines file) empty) as [acc|x] eqn:Hp; cbn [obind]; intros H.
    + right. eapply loop_end_raises; eauto.
    + left. inversion H; subst. eapply parse_lines_raises; eauto.
  - intros e Hl He Hne. rewrite parse_log_open.
    destruct (proj2 (parse_lines_returns (r_lines file) empty) Hl) as [acc ->].
    cbn [obind]. rewrite He. unfold loop_end.
    destruct e as [[]| | | |]; try reflexivity. congruence.
Qed.

Lemma sample_lines_convert line m :
  In line sample_lines -> Re.search pattern line = Some m -> int_ok m /\ floats_ok m.
Proof.
  intros Hin Hs.
  destruct Hin as [<-|[<-|[<-|[]]]];
    vm_compute in Hs; inversion Hs; subst; (split; [eexists; vm_compute; reflexivity|]);
    intros i Hi;
    (assert (Hc : (i = 2 \/ i = 3 \/ i = 4 \/ i = 5 \/ i = 6)%nat) by lia);
    destruct Hc as [->|[->|[->|[->| ->]]]]; vm_compute; eauto.
Qed.

Lemma parse_log_returns_iff_witness :
  (exists g, Re.group ["Step 7, t=1, DT=2, C=3 4 5"; "7"; "1"; "2"; "3"; "4"; "5"] 1 = Ok g /\
     (int_ok ["Step 7, t=1, DT=2, C=3 4 5"; "7"; "1"; "2"; "3"; "4"; "5"] <->
      (String.length g <= int_max_str_digits)%nat)) /\
  (exists r, parse_log (Returns (all_read sample_lines)) = Ok r) /\
  (forall e, parse_log (Returns (all_read [cut_line])) = Raise e ->
     e = ValueError \/ r_error (all_read [cut_line]) = Some e) /\
  parse_log (Returns undecodable) = Raise UnicodeDecodeError.
Proof.
  split; [|split; [|split]].
  - apply (proj1 (parse_log_returns_iff (all_read ["Step 7, t=1, DT=2, C=3 4 5"]))
             "Step 7, t=1, DT=2, C=3 4 5").
    + left. reflexivity.
    + vm_compute. reflexivity.
  - apply (proj2 (proj1 (proj2 (parse_log_returns_iff (all_read sample_lines))))).
    split; [exact sample_lines_convert|left; reflexivity].
  - apply (proj1 (proj2 (proj2 (parse_log_returns_iff (all_read [cut_line]))))).
  - apply (proj2 (proj2 (proj2 (parse_log_returns_iff undecodable))) UnicodeDecodeError).
    + exact sample_lines_convert.
    + reflexivity.
    + discriminate.
Defined.

(** ** A tick and the six lists *)

Lemma prefix_refl A (l : list A) : prefix l l.
Proof. exists []. now rewrite app_nil_r. Qed.

Lemma prefix_snoc_trans A (l1 l2 : list A) x : prefix (l1 ++ [x]) l2 -> prefix l1 l2.
Proof. intros [k ->]. exists (x :: k). now rewrite <- app_assoc. Qed.

Lemma prefix6_refl r : prefix6 r r.
Proof. destruct r as [[[[[a b] c] d] e] f]. simpl. repeat split; apply prefix_refl. Qed.

Lemma prefix6_push acc row r : prefix6 (push acc row) r -> prefix6 acc r.
Proof.
  destruct acc as [[[[[a0 b0] c0] d0] e0] f0], row as [[[[[x1 x2] x3] x4] x5] x6],
           r as [[[[[a b] c] d] e] f].
  simpl. intros (H1 & H2 & H3 & H4 & H5 & H6).
  repeat split; eapply prefix_snoc_trans; eauto.
Qed.

Lemma parse_lines_prefix lines : forall acc r,
  parse_lines lines acc = Ok r -> prefix6 acc r.
Proof.
  induction lines as [|line rest IH]; intros acc r; cbn [parse_lines].
  - intros H; inversion H; subst. apply prefix6_refl.
  - rewrite parse_line_convert.
    destruct (Re.search pattern line) as [m|]; [|apply IH].
    destruct (convert m) as [row|]; [|discriminate].
    cbn [obind]. intros H. eapply prefix6_push, IH, H.
Qed.

Lemma parse_lines_app l1 l2 : forall acc,
  parse_lines (l1 ++ l2) acc = obind (parse_lines l1 acc) (parse_lines l2).
Proof.
  induction l1 as [|line rest IH]; intros acc; cbn [parse_lines app]; [reflexivity|].
  destruct (parse_line line acc); cbn [obind]; auto.
Qed.

Lemma update_data_lists w self :
  lists (state_after (update_data w) self) =
  match parse_log (w_open w) with
  | Ok r => r
  | Raise _ => lists self
  end.
Proof.
  rewrite update_data_state. destruct (parse_log (w_open w)).
  - now rewrite update_plots_lists, lists_set_lists.
  - apply clocked_fields.
Qed.

Lemma loop_end_prefix err acc r : loop_end err acc = Ok r -> prefix6 acc r.
Proof. intros H. apply loop_end_ok in H. subst. apply prefix6_refl. Qed.

Lemma held_reachable : reachable held.
Proof. exact (reachable_step (Tick sample_world) sample_init_reachable). Qed.

Lemma held_steps : steps held = [1; 2].
Proof. vm_compute. reflexivity. Qed.

Lemma absent_tick_not_prefix self :
  steps self <> [] ->
  ~ prefix6 (lists self) (lists (state_after (update_data absent_world) self)).
Proof.
  intros Hne. rewrite update_data_lists. cbn [absent_world w_open].
  change (parse_log (Errno FileNotFoundError)) with (Ok empty).
  cbv iota. unfold lists, empty, prefix6. intros [[k Hk] _].
  destruct (steps self); [congruence|discriminate].
Qed.

(** C5, counterexample: after a tick that read two steps, a tick that
    finds the file gone leaves the lists empty. *)
Lemma tick_keeps_prefix_counterexample : ~ tick_keeps_prefix.
Proof.
  intros H. apply (@absent_tick_not_prefix held).
  - rewrite held_steps. discriminate.
  - apply H. exact held_reachable.
Qed.

(** C5, amended. A tick on which [parse_log] returns puts the lists it
    returns in place of the six lists of the object (the appends are those
    of [parse_log] to its own fresh lists). What the object held before
    the tick is a prefix of what it holds after when it held the parse of
    some lines and the tick reads these lines followed by further ones. *)
Theorem tick_replaces_lists w self :
  (forall r, parse_log (w_open w) = Ok r ->
     lists (state_after (update_data w) self) = r) /\
  (forall lines more err r,
     parse_log (Returns (all_read lines)) = Ok (lists self) ->
     w_open w = Returns {| r_lines := lines ++ more; r_error := err |} ->
     parse_log (w_open w) = Ok r ->
     prefix6 (lists self) (lists (state_after (update_data w) self))).
Proof.
  split.
  - intros r H. now rewrite update_data_lists, H.
  - intros lines more err r H1 H2 H3. rewrite update_data_lists, H3.
    rewrite H2, parse_log_open in H3. cbn [r_lines r_error] in H3.
    rewrite parse_lines_app in H3.
    rewrite parse_log_all_read in H1. rewrite H1 in H3. cbn [obind] in H3.
    destruct (parse_lines more (lists self)) as [acc|] eqn:Hm; cbn [obind] in H3;
      [|discriminate].
    apply loop_end_ok in H3. subst acc.
    eapply parse_lines_prefix, Hm.
Qed.

Lemma tick_replaces_lists_witness :
  exists r,
    parse_log (Returns (all_read sample_lines)) = Ok (lists held) /\
    parse_log (w_open grown_world) = Ok r /\
    lists (state_after (update_data grown_world) held) = r /\
    prefix6 (lists held) (lists (state_after (update_data grown_world) held)).
Proof.
  eexists. split; [vm_compute; reflexivity|]. split; [vm_compute; reflexivity|]. split.
  - apply (proj1 (tick_replaces_lists grown_world held)). vm_compute. reflexivity.
  - apply (proj2 (tick_replaces_lists grown_world held) sample_lines
             ["Step      3, t= 3.0000000E-03, DT= 1.0000000E-03, C=  0.018 1.2E+01 3.9E+00"]
             None
             (match parse_log (w_open grown_world) with Ok r => r | Raise _ => empty end)).
    + vm_compute. reflexivity.
    + reflexivity.
    + vm_compute. reflexivity.
Defined.

Lemma cut_tick_keeps self :
  lists (state_after (update_data cut_world) self) = lists self.
Proof.
  rewrite update_data_lists. cbn [cut_world w_open].
  now rewrite (proj2 (proj2 cut_line_raises)).
Qed.

(** C6, counterexample: a tick that reads the cut line raises in
    [parse_log], before the assignment; the lists stay empty from the
    first state and stay [1; 2] and the rest from the state that read the
    sample lines. *)
Lemma tick_forgets_lists_counterexample : ~ tick_forgets_lists.
Proof.
  intros H.
  pose proof (H cut_world sample_init held sample_init_reachable held_reachable) as E.
  rewrite !cut_tick_keeps in E. apply steps_lists in E.
  rewrite held_steps in E. discriminate E.
Qed.

(** C6, amended. A tick on which [parse_log] returns leaves in the six
    lists of the object the lists [parse_log] returns on what the tick
    read of the file, whatever the lists held before: from two states,
    the same read leaves the same six lists. A tick on which [parse_log]
    raises leaves the six lists as they were, in each of the two
    states. *)
Theorem tick_rebuilds_lists w self1 self2 :
  (forall r, parse_log (w_open w) = Ok r ->
     lists (state_after (update_data w) self1) = r /\
     lists (state_after (update_data w) self2) = r /\
     lists (state_after (update_data w) self1) = lists (state_after (update_data w) self2)) /\
  (forall e, parse_log (w_open w) = Raise e ->
     outcome_of (update_data w) self1 = Raise e /\
     outcome_of (update_data w) self2 = Raise e /\
     lists (state_after (update_data w) self1) = lists self1 /\
     lists (state_after (update_data w) self2) = lists self2).
Proof.
  split.
  - intros r H. rewrite !update_data_lists, H. auto.
  - intros e H. rewrite !update_data_lists, !update_data_outcome, H. auto.
Qed.

Lemma tick_rebuilds_lists_witness :
  (exists r,
     parse_log (w_open sample_world) = Ok r /\
     lists (state_after (update_data sample_world) sample_init) = r /\
     lists (state_after (update_data sample_world)
              (exec sample_init [Tick grown_world])) = r /\
     lists (state_after (update_data sample_world) sample_init) =
     lists (state_after (update_data sample_world) (exec sample_init [Tick grown_world]))) /\
  parse_log (w_open cut_world) = Raise ValueError /\
  lists (state_after (update_data cut_world) held) = lists held.
Proof.
  split; [|split].
  - eexists. split; [vm_compute; reflexivity|].
    apply (proj1 (@tick_rebuilds_lists sample_world sample_init
                    (exec sample_init [Tick grown_world]))).
    vm_compute. reflexivity.
  - exact (proj2 (proj2 cut_line_raises)).
  - apply (proj2 (@tick_rebuilds_lists cut_world sample_init held) ValueError).
    exact (proj2 (proj2 cut_line_raises)).
Defined.

(** ** The errors that are handled *)

Lemma denied_tick_returns : outcome_of (update_data denied_world) sample_init = Ok tt.
Proof. vm_compute. reflexivity. Qed.

(** C3, counterexample: the tick meets PermissionError in [getmtime],
    takes the modification time to be 0 and returns. *)
Lemma only_missing_file_handled_counterexample : ~ only_missing_file_handled.
Proof.
  intros [_ H].
  assert (E : PermissionError = FileNotFoundError).
  { apply (H denied_world sample_init).
    - left. reflexivity.
    - exact denied_tick_returns. }
  discriminate E.
Qed.

(** C3, amended. When the log file is absent [parse_log] returns six
    empty lists. FileNotFoundError is the only exception [parse_log]
    handles: every other OSError of [open] and every exception of the loop
    leave it. Besides, [__init__] and [update_data] handle every OSError
    of [os.path.getmtime], a missing file or not, by taking the
    modification time to be 0. *)
Theorem handled_errors :
  parse_log (Errno FileNotFoundError) = Ok empty /\
  (forall e, e <> FileNotFoundError -> parse_log (Errno e) = Raise (OSError e)) /\
  (forall file x, parse_lines (r_lines file) empty = Raise x ->
     parse_log (Returns file) = Raise x) /\
  (forall e now, last_file_mod (init (Errno e) now) = zero) /\
  (forall e t o fig self,
     update_data {| w_getmtime := Errno e; w_time := t; w_open := o; w_figure := fig |} self =
     update_data {| w_getmtime := Returns zero; w_time := t; w_open := o;
                    w_figure := fig |} self).
Proof.
  split; [reflexivity|]. split; [|split; [|split]].
  - intros e He. destruct e; try reflexivity. congruence.
  - intros file x H. rewrite parse_log_open, H. reflexivity.
  - reflexivity.
  - reflexivity.
Qed.

Lemma handled_errors_witness :
  PermissionError <> FileNotFoundError /\
  parse_log (Errno PermissionError) = Raise (OSError PermissionError) /\
  parse_lines [cut_line] empty = Raise ValueError /\
  parse_log (Returns (all_read [cut_line])) = Raise ValueError.
Proof.
  split; [discriminate|]. split; [|split].
  - apply (proj1 (proj2 handled_errors) PermissionError). discriminate.
  - vm_compute. reflexivity.
  - apply (proj1 (proj2 (proj2 handled_errors)) (all_read [cut_line]) ValueError).
    vm_compute. reflexivity.
Defined.

(** ** The two indicators *)

Lemma SFcompare_antisym x y :
  SFcompare y x = option_map CompOpp (SFcompare x y).
Proof.
  destruct x as [sx|sx| |sx mx ex], y as [sy|sy| |sy my ey]; simpl;
    try reflexivity; try (destruct sx; reflexivity); try (destruct sy; reflexivity);
    try (destruct sx, sy; reflexivity).
  destruct sx, sy; simpl; try reflexivity;
    rewrite (Z.compare_antisym ex ey); destruct (Z.compare ex ey) eqn:E; simpl;
    try reflexivity;
    change (Pos.compare_cont Eq my mx) with (Pos.compare my mx);
    change (Pos.compare_cont Eq mx my) with (Pos.compare mx my);
    rewrite (Pos.compare_antisym mx my); destruct (Pos.compare mx my); reflexivity.
Qed.

Lemma SFltb_asym x y : SFltb x y = true -> SFltb y x = false.
Proof.
  unfold SFltb. rewrite (SFcompare_antisym x y).
  destruct (SFcompare x y) as [[| |]|]; simpl; congruence.
Qed.

Lemma SFltb_irrefl x : SFltb x x = false.
Proof.
  destruct (SFltb x x) eqn:E; [|reflexivity].
  pose proof (SFltb_asym _ _ E). congruence.
Qed.

Lemma led_calls_in w self c :
  In c (calls_of (update_data w) self) <->
  In c (led_calls w self) \/
  (drawing c /\ In c (calls_of (update_data w) self)).
Proof.
  split.
  - rewrite update_data_calls. intros H. apply in_app_or in H.
    destruct H as [H|H]; [now left|]. right. split.
    + destruct (parse_log (w_open w)); [|destruct H].
      eapply update_plots_calls; eauto.
    + apply in_or_app. now right.
  - intros [H|[_ H]]; [|exact H].
    rewrite update_data_calls. apply in_or_app. now left.
Qed.

Lemma clocked_last_update_time w self : last_update_time (clocked w self) = w_time w.
Proof. unfold clocked. destruct (newer w self), self; reflexivity. Qed.

Lemma clocked_last_file_mod w self :
  last_file_mod (clocked w self) =
  if newer w self then mod_of w else last_file_mod self.
Proof. unfold clocked. destruct (newer w self), self; reflexivity. Qed.

Lemma set_lists_clock r s :
  last_update_time (set_lists r s) = last_update_time s /\
  last_file_mod (set_lists r s) = last_file_mod s.
Proof. destruct r as [[[[[a b] c] d] e] f]. split; reflexivity. Qed.

Lemma jam_threshold_value : jam_threshold = S754_finite false 4953959590107546 (-52).
Proof. vm_compute. reflexivity. Qed.

Lemma lit_1_1_value : lit_1_1 = S754_finite false 4953959590107546 (-52).
Proof. vm_compute. reflexivity. Qed.

(** C8. On every tick the Jam indicator is set to a colour, and its
    return to gray 50 ms later is scheduled, exactly when the float
    [now - last_update_time] is greater than the float
    [(poll_interval_ms/1000.) * 1.1], which for the interval of 1000 ms is
    the float 1.1; the colour is red. Whatever the tick does besides,
    also when [parse_log] raises, it leaves [last_update_time] at [now]. *)
Theorem jam_led w self :
  (forall s, In (SetStyleSheet delay_led s) (calls_of (update_data w) self) <->
             s = style "red" /\
             SFltb jam_threshold (SFsub prec emax (w_time w) (last_update_time self)) = true) /\
  (forall ms c, In (SingleShot ms (SetStyleSheet delay_led c)) (calls_of (update_data w) self) <->
             (ms = 50 /\ c = style "gray") /\
             SFltb jam_threshold (SFsub prec emax (w_time w) (last_update_time self)) = true) /\
  last_update_time (state_after (update_data w) self) = w_time w /\
  poll_interval_ms = 1000 /\ jam_threshold = lit_1_1.
Proof.
  split; [|split; [|split; [|split]]].
  - intros s. rewrite led_calls_in. unfold led_calls, drawing, flash_calls.
    change (SFltb jam_threshold (SFsub prec emax (w_time w) (last_update_time self)))
      with (jammed w self).
    destruct (newer w self), (jammed w self); simpl; split;
      intros H; intuition (try congruence);
      match goal with
      | H : SetStyleSheet _ _ = SetStyleSheet _ _ |- _ => inversion H; subst; auto
      | _ => idtac
      end; try discriminate.
  - intros ms c. rewrite led_calls_in. unfold led_calls, drawing, flash_calls.
    change (SFltb jam_threshold (SFsub prec emax (w_time w) (last_update_time self)))
      with (jammed w self).
    destruct (newer w self), (jammed w self); simpl; split;
      intros H; intuition (try congruence);
      match goal with
      | H : SingleShot _ _ = SingleShot _ _ |- _ => inversion H; subst; auto
      | _ => idtac
      end; try discriminate; subst; auto.
  - rewrite update_data_state. destruct (parse_log (w_open w)).
    + rewrite update_plots_last_update_time.
      rewrite (proj1 (set_lists_clock _ _)). apply clocked_last_update_time.
    + apply clocked_last_update_time.
  - reflexivity.
  - rewrite jam_threshold_value, lit_1_1_value. reflexivity.
Qed.

Lemma jam_led_witness :
  In (SetStyleSheet delay_led (style "red")) (calls_of (update_data absent_world) sample_init) /\
  last_update_time (state_after (update_data absent_world) sample_init) = w_time absent_world.
Proof.
  split.
  - apply (proj2 (proj1 (jam_led absent_world sample_init) (style "red"))).
    split; [reflexivity|vm_compute; reflexivity].
  - apply (proj1 (proj2 (proj2 (jam_led absent_world sample_init)))).
Defined.

Lemma old_init_reachable : reachable old_init.
Proof. exists (Returns (of_decimal true 1 0)), t0, []. reflexivity. Qed.

Lemma update_led_in w self s :
  In (SetStyleSheet update_led s) (calls_of (update_data w) self) <->
  s = style "green" /\ SFltb (last_file_mod self) (mod_of w) = true.
Proof.
  rewrite led_calls_in. unfold led_calls, drawing, flash_calls.
  change (SFltb (last_file_mod self) (mod_of w)) with (newer w self).
  destruct (newer w self), (jammed w self); simpl; split;
    intros H; intuition (try congruence);
    match goal with
    | H : SetStyleSheet _ _ = SetStyleSheet _ _ |- _ => inversion H; subst; auto
    | _ => idtac
    end; try discriminate.
Qed.

Lemma update_data_last_file_mod w self :
  last_file_mod (state_after (update_data w) self) =
  if SFltb (last_file_mod self) (mod_of w) then mod_of w else last_file_mod self.
Proof.
  rewrite update_data_state. destruct (parse_log (w_open w)).
  - rewrite update_plots_last_file_mod, (proj2 (set_lists_clock _ _)).
    apply clocked_last_file_mod.
  - apply clocked_last_file_mod.
Qed.

(** C9, counterexample: the file dated before the epoch is removed; the
    tick takes 0 for its modification time, 0 is greater than -1.0, and
    the Update indicator is set to green. *)
Lemma missing_file_never_flashes_counterexample : ~ missing_file_never_flashes.
Proof.
  intros H.
  apply (H old_init absent_world old_init_reachable eq_refl).
  apply update_led_in. split; reflexivity.
Qed.

Lemma on_label_click_last_file_mod a fig : stable last_file_mod (on_label_click a fig).
Proof. unfold on_label_click, update_plots, redraw. frame. Qed.

(** In a run in which no modification time read is below 0,
    [last_file_mod] is never below 0. *)
Lemma last_file_mod_not_negative evs : forall self,
  not_negative (last_file_mod self) -> ticks_ok evs ->
  not_negative (last_file_mod (exec self evs)).
Proof.
  induction evs as [|[w|a fig] evs IH]; intros self H0 Hok; simpl; [exact H0| |].
  - destruct Hok as [Hw Hok]. apply IH; [|exact Hok].
    rewrite update_data_last_file_mod.
    destruct (SFltb (last_file_mod self) (mod_of w)); [|exact H0].
    unfold mod_of. destruct (w_getmtime w); [exact Hw|reflexivity].
  - apply IH; [|exact Hok]. now rewrite on_label_click_last_file_mod.
Qed.

Lemma init_not_negative g now : mtime_ok g -> not_negative (last_file_mod (init g now)).
Proof. destruct g; simpl; [auto|reflexivity]. Qed.

(** C9, amended. On every tick the Update indicator is set to a colour
    exactly when the modification time of the tick (0 when [getmtime]
    raises) is greater than [last_file_mod]; the colour is green, and
    [last_file_mod] takes the new modification time in that case and is
    left as it was otherwise, so that it never decreases. A tick that
    finds no file sets the indicator exactly when [last_file_mod] is
    below 0, hence never in a run in which no modification time read so
    far was below 0. *)
Theorem update_led_flash w self :
  (forall s, In (SetStyleSheet update_led s) (calls_of (update_data w) self) <->
             s = style "green" /\ SFltb (last_file_mod self) (mod_of w) = true) /\
  last_file_mod (state_after (update_data w) self) =
    (if SFltb (last_file_mod self) (mod_of w) then mod_of w else last_file_mod self) /\
  SFltb (last_file_mod (state_after (update_data w) self)) (last_file_mod self) = false /\
  (forall m, w_getmtime w = Returns m -> mod_of w = m) /\
  (forall e, w_getmtime w = Errno e ->
     mod_of w = zero /\
     (In (SetStyleSheet update_led (style "green")) (calls_of (update_data w) self) <->
      SFltb (last_file_mod self) zero = true)) /\
  (forall g now evs e,
     self = exec (init g now) evs -> mtime_ok g -> ticks_ok evs ->
     w_getmtime w = Errno e ->
     ~ In (SetStyleSheet update_led (style "green")) (calls_of (update_data w) self)).
Proof.
  pose proof (update_data_last_file_mod w self) as L.
  assert (Z0 : forall e, w_getmtime w = Errno e -> mod_of w = zero)
    by (intros e He; unfold mod_of; now rewrite He).
  split; [|split; [|split; [|split; [|split]]]].
  - intros s. apply update_led_in.
  - exact L.
  - rewrite L. destruct (SFltb (last_file_mod self) (mod_of w)) eqn:E.
    + now apply SFltb_asym.
    + apply SFltb_irrefl.
  - intros m Hm. unfold mod_of. now rewrite Hm.
  - intros e He. split; [exact (Z0 e He)|]. rewrite update_led_in, (Z0 e He). tauto.
  - intros g now evs e -> Hg Hevs He. rewrite update_led_in, (Z0 e He).
    intros [_ H].
    pose proof (@last_file_mod_not_negative evs (init g now)
                  (@init_not_negative g now Hg) Hevs) as N.
    unfold not_negative in N. congruence.
Qed.

Lemma update_led_flash_witness :
  w_getmtime sample_world = Returns (of_decimal false 1700000000 0) /\
  mod_of sample_world = of_decimal false 1700000000 0 /\
  w_getmtime absent_world = Errno FileNotFoundError /\
  (mod_of absent_world = zero /\
  (In (SetStyleSheet update_led (style "green")) (calls_of (update_data absent_world) old_init) <->
   SFltb (last_file_mod old_init) zero = true)) /\
  ~ In (SetStyleSheet update_led (style "green")) (calls_of (update_data absent_world) sample_init).
Proof.
  split; [reflexivity|]. split.
  - apply (proj1 (proj2 (proj2 (proj2 (update_led_flash sample_world sample_init))))).
    reflexivity.
  - split; [reflexivity|]. split.
    + apply (proj1 (proj2 (proj2 (proj2 (proj2 (update_led_flash absent_world old_init)))))
               FileNotFoundError).
      reflexivity.
    + apply (proj2 (proj2 (proj2 (proj2 (proj2 (update_led_flash absent_world sample_init)))))
               (Errno FileNotFoundError) t0 [] FileNotFoundError).
      * reflexivity.
      * exact I.
      * exact I.
      * reflexivity.
Defined.

(** ** The x-axis toggle *)

Lemma toggled_mode old : is_mode old -> is_mode (toggled old) /\ toggled (toggled old) = old.
Proof. intros [->| ->]; split; try reflexivity; [right|left]; reflexivity. Qed.

Lemma in_xlabels i : In (XLabel i) xlabels -> (i < 5)%nat.
Proof.
  simpl. intros H.
  repeat (destruct H as [H|H]; [inversion H; lia|]). destruct H.
Qed.

(** A click on a registered label, in a state of a run: float holds
    the steps, the label being registered, so that the five charts are
    drawn again and the five labels registered again, whatever the
    layout and the drawing of the figure do then. *)
Lemma click_x_modes self i fig :
  wf self -> label_texts self = xlabels -> (i < 5)%nat ->
  exists old,
    nth_error (x_modes self) i = Some old /\ is_mode old /\
    x_modes (state_after (on_label_click (XLabel i) fig) self) =
      set_nth (x_modes self) i (toggled old) /\
    label_texts (state_after (on_label_click (XLabel i) fig) self) = xlabels.
Proof.
  intros W HL Hi. destruct W as [H1 H2 H3 _ H5 H6].
  destruct (nth_error (x_modes self) i) as [old|] eqn:Hn.
  2:{ apply nth_error_None in Hn. lia. }
  exists old. split; [reflexivity|]. split.
  { rewrite Forall_forall in H2. apply H2. eapply nth_error_In; eauto. }
  rewrite on_label_click_state, HL, (index_of_xlabel Hi), Hn.
  fold (toggled old).
  destruct (set_x_modes_fields (set_nth (x_modes self) i (toggled old)) self)
    as (Hx & Ha & _ & Hl).
  split; [rewrite update_plots_x_modes; exact Hx|].
  rewrite update_plots_state.
  - rewrite (steps_lists Hl), (H5 HL). apply drawn_fields.
  - rewrite Hx, length_set_nth. exact H1.
  - congruence.
  - rewrite Hl. exact H6.
Qed.

(** C7. In a run of the program, a click on the x-axis label of chart
    [i], once the labels are drawn, changes [x_modes[i]] from 'step' to
    'time' or from 'time' to 'step' and leaves [x_modes[j]] as it was for
    every other [j]; a second click on the same label gives back the
    whole list [x_modes]. This holds whatever the layout and the drawing
    of the figure do after each click. *)
Theorem label_click_toggles self i fig1 fig2 :
  reachable self -> In (XLabel i) (label_texts self) ->
  let self1 := state_after (on_label_click (XLabel i) fig1) self in
  let self2 := state_after (on_label_click (XLabel i) fig2) self1 in
  (nth_error (x_modes self) i = Some "step" /\ nth_error (x_modes self1) i = Some "time" \/
   nth_error (x_modes self) i = Some "time" /\ nth_error (x_modes self1) i = Some "step") /\
  (forall j, j <> i -> nth_error (x_modes self1) j = nth_error (x_modes self) j) /\
  x_modes self2 = x_modes self.
Proof.
  intros R Hin self1 self2.
  pose proof (reachable_wf R) as W.
  assert (HL : label_texts self = xlabels).
  { destruct (wf_labels W) as [E|E]; [rewrite E in Hin; destruct Hin|exact E]. }
  assert (Hi : (i < 5)%nat) by (apply in_xlabels; now rewrite <- HL).
  destruct (@click_x_modes self i fig1 W HL Hi) as (old & Hn & Hm & Hx & HL1).
  fold self1 in Hx, HL1.
  assert (W1 : wf self1) by (apply on_label_click_wf; exact W).
  destruct (@click_x_modes self1 i fig2 W1 HL1 Hi) as (old1 & Hn1 & _ & Hx1 & _).
  fold self2 in Hx1.
  assert (Hlen : (i < List.length (x_modes self))%nat) by (rewrite (wf_modes_len W); exact Hi).
  assert (E1 : nth_error (x_modes self1) i = Some (toggled old))
    by (rewrite Hx; now apply nth_error_set_nth_eq).
  split; [|split].
  - rewrite E1, Hn. destruct Hm as [->| ->]; [left|right]; split; reflexivity.
  - intros j Hj. rewrite Hx. apply nth_error_set_nth_ne. congruence.
  - rewrite Hx1. rewrite E1 in Hn1. inversion Hn1; subst old1.
    rewrite Hx, set_nth_twice, (proj2 (toggled_mode Hm)).
    now apply set_nth_same.
Qed.

(** The labels are drawn after the first tick. *)
Lemma held_labels : label_texts held = xlabels.
Proof. vm_compute. reflexivity. Qed.

Lemma held_label_in : In (XLabel 2) (label_texts held).
Proof. rewrite held_labels. simpl. tauto. Qed.

Lemma label_click_toggles_witness :
  reachable held /\ In (XLabel 2) (label_texts held) /\
  (nth_error (x_modes held) 2 = Some "step" /\
   nth_error (x_modes (state_after (on_label_click (XLabel 2) fine) held)) 2 = Some "time" \/
   nth_error (x_modes held) 2 = Some "time" /\
   nth_error (x_modes (state_after (on_label_click (XLabel 2) fine) held)) 2 = Some "step") /\
  (forall j, j <> 2%nat ->
     nth_error (x_modes (state_after (on_label_click (XLabel 2) fine) held)) j =
     nth_error (x_modes held) j) /\
  x_modes (state_after (on_label_click (XLabel 2) fine)
             (state_after (on_label_click (XLabel 2) fine) held)) = x_modes held.
Proof.
  split; [exact held_reachable|]. split; [exact held_label_in|].
  exact (@label_click_toggles held 2 fine fine held_reachable held_label_in).
Defined.

(** ** What the charts show *)

Lemma overflowed_reachable : reachable overflowed.
Proof.
  exists (Errno FileNotFoundError), t0,
         [Tick sample_world; Pick (XLabel 0) fine; Tick big_world].
  reflexivity.
Qed.

(** The big line is read: its step number is an int that no float
    holds; the first chart of the state it leaves is in mode 'time'. *)
Lemma overflowed_state :
  (exists n, steps overflowed = [n] /\ fits n = false) /\
  nth_error (x_modes overflowed) 0 = Some "time".
Proof. split; [eexists; split|]; vm_compute; reflexivity. Qed.

Lemma overflowed_first_chart :
  outcome_of (update_plots fine) overflowed = Raise OverflowError /\
  nth_error (axes (state_after (update_plots fine) overflowed)) 0 = Some None.
Proof. split; vm_compute; reflexivity. Qed.

(** C10, counterexample: the log holds a step number of 310 digits, and
    the first chart is in mode 'time'. [ax.plot] raises OverflowError on
    the steps, and the first subplot is left cleared: it shows
    nothing. *)
Lemma first_chart_swapped_counterexample : ~ first_chart_swapped.
Proof.
  intros H.
  destruct (H overflowed fine overflowed_reachable (proj2 overflowed_state))
    as (ch & Hch & _).
  rewrite (proj2 overflowed_first_chart) in Hch. discriminate Hch.
Qed.

Lemma charts_first l s modes :
  nth_error (charts l (s :: modes)) 0 = Some (chart_at l 0 s).
Proof. reflexivity. Qed.

(** C10, amended. [update_plots], with five modes for the five subplots
    and six lists of one length. When float holds every step: chart 0
    shows [times] against [steps] with the labels 'Step' and 'Solution
    Time' when [x_modes[0]] is 'step', and both axes and both labels
    swapped when it is 'time'; charts 1-4 always have [dts], [cfls],
    [total_times], [step_times] as y data, with their own y label, and
    the mode chooses the x data only: [steps] with the label 'Step', or
    [times] with the label 'Solution Time'. When a step is beyond the
    range of float, [ax.plot] raises OverflowError in the first round
    whatever the modes: the first subplot is left cleared, the others
    keep what they showed, and no label is registered. *)
Theorem x_axis_toggle_charts self fig :
  List.length (x_modes self) = 5%nat -> List.length (axes self) = 5%nat ->
  eq_len (lists self) ->
  let self' := state_after (update_plots fig) self in
  (forallb fits (steps self) = true ->
   (nth_error (x_modes self) 0 = Some "step" ->
    exists ch, nth_error (axes self') 0 = Some (Some ch) /\
      c_x ch = Ints (steps self) /\ c_y ch = Floats (times self) /\
      c_xlabel ch = "Step" /\ c_ylabel ch = "Solution Time") /\
   (nth_error (x_modes self) 0 = Some "time" ->
    exists ch, nth_error (axes self') 0 = Some (Some ch) /\
      c_x ch = Floats (times self) /\ c_y ch = Ints (steps self) /\
      c_xlabel ch = "Solution Time" /\ c_ylabel ch = "Step") /\
   (forall i mode, (1 <= i <= 4)%nat -> nth_error (x_modes self) i = Some mode ->
    exists ch ydata yl, nth_error (axes self') i = Some (Some ch) /\
      nth_error [dts self; cfls self; total_times self; step_times self] (i - 1) = Some ydata /\
      nth_error ylabels i = Some yl /\
      c_y ch = Floats ydata /\ c_ylabel ch = yl /\
      (mode = "step" -> c_x ch = Ints (steps self) /\ c_xlabel ch = "Step") /\
      (mode = "time" -> c_x ch = Floats (times self) /\ c_xlabel ch = "Solution Time"))) /\
  (forallb fits (steps self) = false ->
   outcome_of (update_plots fig) self = Raise OverflowError /\
   nth_error (axes self') 0 = Some None /\
   (forall i, (1 <= i)%nat -> nth_error (axes self') i = nth_error (axes self) i) /\
   label_texts self' = []).
Proof.
  intros Hx Ha Hl self'.
  pose proof (@update_plots_state fig self Hx Ha Hl) as S. fold self' in S.
  pose proof (@update_plots_unfold fig self Hx Ha Hl) as U.
  split; intros Hf; rewrite Hf in S, U.
  - assert (A : axes self' = charts (lists self) (x_modes self))
      by (rewrite S; apply drawn_fields).
    rewrite A. clear S U A self' Hf Ha Hl fig.
    destruct self as [lfm lut a b c d e f xm lt ax].
    cbn [x_modes axes lists steps times dts cfls total_times step_times] in *.
    revert Hx. five xm.
    split; [|split].
    + intros Hm. inversion Hm; subst. eexists. split; [reflexivity|]. repeat split.
    + intros Hm. inversion Hm; subst. eexists. split; [reflexivity|]. repeat split.
    + intros i mode Hi Hm.
      assert (Hc : (i = 1 \/ i = 2 \/ i = 3 \/ i = 4)%nat) by lia.
      destruct Hc as [->|[->|[-> | ->]]]; cbn [nth_error] in Hm; inversion Hm; subst;
        do 3 eexists;
        (split; [reflexivity|]); (split; [reflexivity|]); (split; [reflexivity|]);
        cbn [nth]; destruct (String.eqb mode "step") eqn:E;
        (split; [reflexivity|]); (split; [reflexivity|]);
        (split; intros ->; [|]); try discriminate E; split; reflexivity.
  - assert (A : axes self' = set_nth (axes self) 0 None) by (rewrite S; apply drawn_fields).
    split; [|split; [|split]].
    + unfold outcome_of. now rewrite U.
    + rewrite A. apply nth_error_set_nth_eq. lia.
    + intros i Hi. rewrite A. apply nth_error_set_nth_ne. lia.
    + rewrite S. apply drawn_fields.
Qed.

(** The state after a tick that read the sample lines and a click on
    the x-axis label of the first chart: it holds two steps, and its
    first chart is in mode 'time'. *)
Lemma clicked_state :
  List.length (x_modes clicked) = 5%nat /\ List.length (axes clicked) = 5%nat /\
  eq_len (lists clicked) /\ forallb fits (steps clicked) = true /\
  nth_error (x_modes clicked) 0 = Some "time" /\ steps clicked = [1; 2].
Proof. vm_compute. repeat split. Qed.

Lemma x_axis_toggle_charts_witness :
  (List.length (x_modes clicked) = 5%nat /\ List.length (axes clicked) = 5%nat /\
   eq_len (lists clicked) /\ forallb fits (steps clicked) = true /\
   nth_error (x_modes clicked) 0 = Some "time" /\ steps clicked = [1; 2]) /\
  (exists ch, nth_error (axes (state_after (update_plots fine) clicked)) 0 = Some (Some ch) /\
     c_x ch = Floats (times clicked) /\ c_y ch = Ints (steps clicked) /\
     c_xlabel ch = "Solution Time" /\ c_ylabel ch = "Step").
Proof.
  split; [exact clicked_state|].
  destruct clicked_state as (H1 & H2 & H3 & H4 & H5 & _).
  exact (proj1 (proj2 (proj1 (@x_axis_toggle_charts clicked fine H1 H2 H3) H4)) H5).
Defined.
(** * Further properties *)

(** ** The lines on which the pattern matches *)

Lemma append_nil_r (s : string) : (s ++ "")%string = s.
Proof. induction s; simpl; congruence. Qed.

Lemma mem_chr c d : Re.mem c [Re.Chr d] = true -> c = d.
Proof.
  unfold Re.mem. simpl. rewrite orb_false_r. apply Ascii.eqb_eq.
Qed.

(** The three sets of the pattern against each other. *)
Lemma sets_apart c :
  (Re.mem c digit_set = true -> Re.mem c space_set = false) /\
  (Re.mem c num_set = true -> Re.mem c space_set = false) /\
  (Re.mem c space_set = true -> Re.mem c num_set = false) /\
  (Re.mem c digit_set = true -> Re.mem c num_set = true).
Proof.
  destruct c as [[] [] [] [] [] [] [] []]; vm_compute; repeat split; congruence.
Qed.

Lemma search_at r s m :
  Re.search r s = Some m ->
  exists pre t post c, s = (pre ++ t ++ post)%string /\ m = t :: c /\ Matches r t c.
Proof.
  induction s as [|a s IH]; simpl; intros H.
  - destruct (Re.rmatch r "" [] _) eqn:Hr; [|discriminate].
    inversion H; subst. apply rmatch_sound in Hr.
    destruct Hr as (t & rest & c & E & Hm & Hk). inversion Hk; subst.
    exists "", t, rest, c. auto.
  - destruct (Re.rmatch r (String a s) [] _) eqn:Hr.
    + inversion H; subst. apply rmatch_sound in Hr.
      destruct Hr as (t & rest & c & E & Hm & Hk). inversion Hk; subst.
      exists "", t, rest, c. auto.
    + destruct (IH H) as (pre & t & post & c & -> & -> & Hm).
      exists (String a pre), t, post, c. auto.
Qed.

(** From a match of the pattern to the line it spells. *)
Lemma pattern_spells t c :
  Matches pattern t c ->
  exists g f, t = log_line g f /\ c = groups_of f /\ gaps_ok g /\ fields_ok f.
Proof.
  intros H. cbv [pattern num Re.cat fold_right Re.lit] in H.
  invert_matches.
  repeat match goal with
         | H : Re.mem ?c [Re.Chr _] = true |- _ => apply mem_chr in H; subst c
         end.
  match goal with
  | |- exists g f, (_ ++ (String ?a1 ?w1 ++ (String ?d ?n ++ (_ ++ (?w2 ++ (_ ++ (?w3 ++
         (String ?c2 ?x2 ++ (_ ++ (?w4 ++ (_ ++ (?w5 ++ (String ?c3 ?x3 ++ (_ ++ (?w6 ++
         (_ ++ (?w7 ++ (String ?c4 ?x4 ++ (?w8 ++ (String ?c5 ?x5 ++ (?w9 ++
         (String ?c6 ?x6 ++ _))))))))))))))))))))))%string = _ /\ _ =>
      exists {| g1 := String a1 w1; g2 := w2; g3 := w3; g4 := w4; g5 := w5;
                g6 := w6; g7 := w7; g8 := w8; g9 := w9 |},
             {| f_step := String d n; f_t := String c2 x2; f_dt := String c3 x3;
                f_c := String c4 x4; f_total := String c5 x5; f_wall := String c6 x6 |}
  end.
  split; [unfold log_line; simpl; rewrite ?append_nil_r; reflexivity|].
  split; [reflexivity|].
  unfold gaps_ok, fields_ok, run_of, space_set, digit_set, num_set; cbn [g1 g2 g3 g4 g5 g6 g7 g8 g9 f_step f_t f_dt f_c f_total f_wall].
  repeat split; try discriminate; try assumption; apply all_in_cons; assumption.
Qed.

(** A text with the shape of the pattern is matched by it. *)
Lemma Matches_seq r1 r2 t1 t2 t c1 c2 c :
  t = (t1 ++ t2)%string -> Matches r1 t1 c1 -> Matches r2 t2 c2 -> c = c1 ++ c2 ->
  Matches (Re.Seq r1 r2) t c.
Proof. intros -> H1 H2 ->. now constructor. Qed.

Lemma Matches_lit l : Matches (Re.lit l) l [].
Proof.
  induction l as [|c l IH]; simpl; [constructor|].
  eapply Matches_seq with (t1 := String c "") (t2 := l) (c1 := []);
    [reflexivity| |exact IH|reflexivity].
  constructor. unfold Re.mem. simpl. now rewrite Ascii.eqb_refl.
Qed.

Lemma Matches_plus cs t : run_of cs t -> Matches (Re.Plus cs) t [].
Proof.
  intros [Hne Hall]. destruct t as [|c t]; [congruence|].
  simpl in Hall. apply andb_prop in Hall. destruct Hall. now constructor.
Qed.

Lemma Matches_group_plus cs t : run_of cs t -> Matches (Re.Group (Re.Plus cs)) t [t].
Proof. intros H. apply (MGroup (Matches_plus H)). Qed.

Lemma spelled_matches g f :
  gaps_ok g -> fields_ok f -> Matches pattern (log_line g f) (groups_of f).
Proof.
  intros (G1 & G2 & G3 & G4 & G5 & G6 & G7 & G8 & G9) (F1 & F2 & F3 & F4 & F5 & F6).
  unfold log_line. rewrite <- (append_nil_r (f_wall f)).
  cbv [pattern Re.cat fold_right num].
  repeat (eapply Matches_seq;
          [reflexivity
          |first [ apply Matches_lit
                 | apply Matches_group_plus; assumption
                 | apply Matches_plus; assumption
                 | apply MStar; assumption ]
          | |]).
  all: try apply MEps.
  all: reflexivity.
Qed.

(** The matcher finds a match wherever there is one. *)
Lemma star_complete (R : Type) cs t : forall rest (k : string -> string -> option R),
  all_in cs t = true ->
  (exists x, k t rest = Some x) ->
  exists y, Re.star cs (t ++ rest)%string k = Some y.
Proof.
  induction t as [|c t IH]; intros rest k Hall [x Hx]; simpl.
  - destruct rest as [|c rest]; simpl; [eauto|].
    destruct (Re.mem c cs); [|eauto].
    destruct (Re.star cs rest _); eauto.
  - simpl in Hall. apply andb_prop in Hall. destruct Hall as [Hc Ht]. rewrite Hc.
    destruct (IH rest (fun t0 r => k (String c t0) r) Ht) as [y Hy]; [eauto|].
    rewrite Hy. eauto.
Qed.

Lemma rmatch_complete (R : Type) r t c :
  Matches r t c ->
  forall rest caps (k : string -> string -> list string -> option R),
    (exists x, k t rest (caps ++ c) = Some x) ->
    exists y, Re.rmatch r (t ++ rest)%string caps k = Some y.
Proof.
  induction 1 as [|c cs Hc|cs t Ht|cs c t Hc Ht|r t caps' H IH|r1 r2 t1 t2 c1 c2 H1 IH1 H2 IH2];
    intros rest caps k Hk; simpl.
  - now rewrite app_nil_r in Hk.
  - rewrite Hc. now rewrite app_nil_r in Hk.
  - rewrite app_nil_r in Hk.
    apply (star_complete cs t rest (fun t0 r => k t0 r caps) Ht Hk).
  - rewrite Hc. rewrite app_nil_r in Hk.
    apply (star_complete cs t rest (fun t0 r => k (String c t0) r caps) Ht Hk).
  - apply IH. now rewrite <- app_assoc.
  - rewrite append_assoc. apply IH1. apply IH2. now rewrite <- app_assoc.
Qed.

Lemma search_complete r pre t post c :
  Matches r t c -> exists m, Re.search r (pre ++ t ++ post)%string = Some m.
Proof.
  intros H.
  assert (H0 : exists m, Re.search r (t ++ post)%string = Some m).
  { destruct (rmatch_complete H post [] (fun t0 _ caps => Some (t0 :: caps))) as [y Hy];
      [eauto|].
    destruct (t ++ post)%string; simpl; rewrite Hy; eauto. }
  induction pre as [|a pre IH]; simpl; [exact H0|].
  destruct (Re.rmatch r (String a (pre ++ t ++ post)) [] _); eauto.
Qed.

(** X1. The pattern matches on a line exactly when the line contains, in
    this order, 'Step', blanks, digits, a comma, 't=', a field, a comma,
    'DT=', a field, a comma, 'C=' and three fields, with optional blanks
    before the fields and before 't=', 'DT=' and 'C=', a field being a
    non-empty text over 0-9 E + - . ; the match object then holds such a
    text of the line and its six fields. *)
Theorem matching_lines line :
  (matches line = true <->
   exists pre post g f,
     line = (pre ++ log_line g f ++ post)%string /\ gaps_ok g /\ fields_ok f) /\
  (forall m, Re.search pattern line = Some m ->
   exists pre post g f,
     line = (pre ++ log_line g f ++ post)%string /\ gaps_ok g /\ fields_ok f /\
     m = log_line g f :: groups_of f).
Proof.
  assert (S : forall m, Re.search pattern line = Some m ->
            exists pre post g f,
              line = (pre ++ log_line g f ++ post)%string /\ gaps_ok g /\ fields_ok f /\
              m = log_line g f :: groups_of f).
  { intros m H. apply search_at in H. destruct H as (pre & t & post & c & -> & -> & Hm).
    apply pattern_spells in Hm. destruct Hm as (g & f & -> & -> & Hg & Hf).
    exists pre, post, g, f. auto. }
  split; [|exact S]. unfold matches. split.
  - destruct (Re.search pattern line) as [m|] eqn:H; [|discriminate]. intros _.
    destruct (S m eq_refl) as (pre & post & g & f & E & Hg & Hf & _). eauto 8.
  - intros (pre & post & g & f & -> & Hg & Hf).
    destruct (search_complete pre post (spelled_matches Hg Hf)) as [m ->]. reflexivity.
Qed.

Lemma sample_line_spelled :
  nth 0 sample_lines "" = ("" ++ log_line sample_gaps sample_fields ++ "")%string /\
  gaps_ok sample_gaps /\ fields_ok sample_fields.
Proof.
  split; [reflexivity|]. split.
  - repeat split; discriminate.
  - repeat split; discriminate.
Qed.

Lemma matching_lines_witness :
  matches (nth 0 sample_lines "") = true /\
  Re.search pattern (nth 0 sample_lines "") =
    Some (log_line sample_gaps sample_fields :: groups_of sample_fields).
Proof.
  split.
  - apply (proj2 (proj1 (matching_lines (nth 0 sample_lines "")))).
    exists "", "", sample_gaps, sample_fields. exact sample_line_spelled.
  - vm_compute. reflexivity.
Defined.

(** ** A line whose fields are apart *)

Lemma star_max (R : Type) cs t : forall rest (k : string -> string -> option R) x,
  all_in cs t = true -> stops cs rest = true ->
  k t rest = Some x -> Re.star cs (t ++ rest)%string k = Some x.
Proof.
  induction t as [|c t IH]; intros rest k x Hall Hs Hk; simpl.
  - destruct rest as [|c rest]; simpl; [exact Hk|].
    simpl in Hs. apply negb_true_iff in Hs. now rewrite Hs.
  - simpl in Hall. apply andb_prop in Hall. destruct Hall as [Hc Ht]. rewrite Hc.
    now rewrite (IH rest (fun t0 r => k (String c t0) r) x Ht Hs Hk).
Qed.

(** When every run is as long as the text allows, the matcher returns
    this match. *)
Lemma rmatch_max (R : Type) r t rest c :
  MatchesMax r t rest c ->
  forall caps (k : string -> string -> list string -> option R) x,
    k t rest (caps ++ c) = Some x ->
    Re.rmatch r (t ++ rest)%string caps k = Some x.
Proof.
  induction 1 as [rest|c cs rest Hc|cs t rest Ht Hs|cs c t rest Hc Ht Hs
                  |r t rest caps' H IH|r1 r2 t1 t2 rest c1 c2 H1 IH1 H2 IH2];
    intros caps k x Hk; simpl.
  - now rewrite app_nil_r in Hk.
  - rewrite Hc. now rewrite app_nil_r in Hk.
  - rewrite app_nil_r in Hk.
    apply (star_max cs t rest (fun t0 r => k t0 r caps) Ht Hs Hk).
  - rewrite Hc. rewrite app_nil_r in Hk.
    apply (star_max cs t rest (fun t0 r => k (String c t0) r caps) Ht Hs Hk).
  - apply IH. now rewrite <- app_assoc.
  - rewrite append_assoc. apply IH1. apply IH2. now rewrite <- app_assoc.
Qed.

Lemma MatchesMax_seq r1 r2 t1 t2 t rest c1 c2 c :
  t = (t1 ++ t2)%string -> MatchesMax r1 t1 (t2 ++ rest)%string c1 ->
  MatchesMax r2 t2 rest c2 -> c = c1 ++ c2 ->
  MatchesMax (Re.Seq r1 r2) t rest c.
Proof. intros -> H1 H2 ->. now constructor. Qed.

Lemma MatchesMax_lit l rest : MatchesMax (Re.lit l) l rest [].
Proof.
  induction l as [|c l IH]; simpl; [constructor|].
  eapply MatchesMax_seq with (t1 := String c "") (t2 := l) (c1 := []);
    [reflexivity| |exact IH|reflexivity].
  constructor. unfold Re.mem. simpl. now rewrite Ascii.eqb_refl.
Qed.

Lemma MatchesMax_plus cs t rest :
  run_of cs t -> stops cs rest = true -> MatchesMax (Re.Plus cs) t rest [].
Proof.
  intros [Hne Hall] Hs. destruct t as [|c t]; [congruence|].
  simpl in Hall. apply andb_prop in Hall. destruct Hall. now constructor.
Qed.

Lemma MatchesMax_group_plus cs t rest :
  run_of cs t -> stops cs rest = true -> MatchesMax (Re.Group (Re.Plus cs)) t rest [t].
Proof. intros H Hs. apply (@XGroup (Re.Plus cs) t rest [] (@MatchesMax_plus cs t rest H Hs)). Qed.

(** A run of one set stops a run of another. *)
Lemma stops_run cs cs' t rest :
  (forall c, Re.mem c cs' = true -> Re.mem c cs = false) ->
  run_of cs' t -> stops cs (t ++ rest)%string = true.
Proof.
  intros Hd [Hne Hall]. destruct t as [|c t]; [congruence|]. simpl.
  simpl in Hall. apply andb_prop in Hall. destruct Hall as [Hc _].
  now rewrite (Hd c Hc).
Qed.

Lemma run_of_blank t : all_in space_set t = true -> t <> "" -> run_of space_set t.
Proof. intros H Hne. split; assumption. Qed.

Ltac stop :=
  first
    [ reflexivity
    | assumption
    | rewrite append_assoc; eapply stops_run; [|eassumption];
      let c := fresh "c" in let H := fresh "H" in
      intros c H; destruct (sets_apart c) as (? & ? & ? & _); auto ].

Lemma spelled_max g f post :
  gaps_ok g -> separated g -> fields_ok f -> stops num_set post = true ->
  MatchesMax pattern (log_line g f) post (groups_of f).
Proof.
  intros (G1 & G2 & G3 & G4 & G5 & G6 & G7 & G8 & G9) (S8 & S9)
         (F1 & F2 & F3 & F4 & F5 & F6) Hp.
  pose proof (run_of_blank G8 S8) as R8. pose proof (run_of_blank G9 S9) as R9.
  unfold log_line. rewrite <- (append_nil_r (f_wall f)).
  cbv [pattern Re.cat fold_right num].
  repeat (eapply MatchesMax_seq;
          [reflexivity
          |first [ apply MatchesMax_lit
                 | apply MatchesMax_group_plus; [assumption|]
                 | apply MatchesMax_plus; [assumption|]
                 | apply XStar; [assumption|] ]
          | |]).
  all: try apply XEps.
  all: try reflexivity.
  all: try (simpl; exact Hp).
  all: stop.
Qed.

Lemma search_skip pre s :
  no_S pre = true -> Re.search pattern (pre ++ s)%string = Re.search pattern s.
Proof.
  induction pre as [|c pre IH]; simpl; intros H; [reflexivity|].
  apply andb_prop in H. destruct H as [Hc Hp]. apply negb_true_iff in Hc.
  rewrite <- (IH Hp).
  cbv [pattern Re.cat fold_right Re.lit]. cbn [Re.rmatch].
  rewrite Hc. reflexivity.
Qed.

Lemma search_spelled g f pre post :
  gaps_ok g -> separated g -> fields_ok f ->
  no_S pre = true -> stops num_set post = true ->
  Re.search pattern (pre ++ log_line g f ++ post)%string =
    Some (log_line g f :: groups_of f).
Proof.
  intros Hg Hs Hf Hpre Hpost. rewrite (@search_skip pre _ Hpre).
  pose proof (@rmatch_max _ _ _ _ _ (@spelled_max g f post Hg Hs Hf Hpost) []
                (fun t0 _ caps => Some (t0 :: caps)) _ eq_refl) as H.
  change ([] ++ groups_of f) with (groups_of f) in H.
  revert H. generalize (log_line g f ++ post)%string (log_line g f :: groups_of f).
  intros L m H. destruct L; cbn [Re.search]; rewrite H; reflexivity.
Qed.

(** X2. A line in which the three last fields are apart: with no capital
    S before 'Step' and, after the last field, nothing or a character
    that no field can hold, the groups of the match are the six fields as
    written, and when [int] accepts the step and [float] the five others,
    a log that ends with this line and is read to its end parses to the
    parse of the lines before it with one element more in each list. *)
Theorem separated_line_fields g f pre post :
  gaps_ok g -> separated g -> fields_ok f ->
  no_S pre = true -> stops num_set post = true ->
  Re.search pattern (pre ++ log_line g f ++ post)%string =
    Some (log_line g f :: groups_of f) /\
  forall lines r a b c d e x,
    parse_log (Returns (all_read lines)) = Ok r ->
    int (f_step f) = Ok a -> float (f_t f) = Ok b -> float (f_dt f) = Ok c ->
    float (f_c f) = Ok d -> float (f_total f) = Ok e -> float (f_wall f) = Ok x ->
    parse_log (Returns (all_read (lines ++ [(pre ++ log_line g f ++ post)%string]))) =
      Ok (push r (a, b, c, d, e, x)).
Proof.
  intros Hg Hs Hf Hpre Hpost.
  pose proof (@search_spelled g f pre post Hg Hs Hf Hpre Hpost) as S.
  split; [exact S|].
  intros lines r a b c d e x Hr Ha Hb Hc Hd He Hx.
  rewrite parse_log_all_read in *. rewrite parse_lines_app, Hr. cbn [obind parse_lines].
  rewrite parse_line_convert, S.
  unfold convert, group_int, group_float, groups_of. cbn [Re.group nth_error obind].
  rewrite Ha. cbn [obind]. rewrite Hb. cbn [obind]. rewrite Hc. cbn [obind].
  rewrite Hd. cbn [obind]. rewrite He. cbn [obind]. rewrite Hx. reflexivity.
Qed.

Lemma separated_line_fields_witness :
  gaps_ok sample_gaps /\ separated sample_gaps /\ fields_ok sample_fields /\
  Re.search pattern (" " ++ log_line sample_gaps sample_fields ++ " 17")%string =
    Some (log_line sample_gaps sample_fields :: groups_of sample_fields).
Proof.
  assert (G : gaps_ok sample_gaps) by (repeat split; discriminate).
  assert (S : separated sample_gaps) by (split; discriminate).
  assert (F : fields_ok sample_fields) by (repeat split; discriminate).
  split; [exact G|]. split; [exact S|]. split; [exact F|].
  apply (proj1 (@separated_line_fields sample_gaps sample_fields " " " 17"
                  G S F eq_refl eq_refl)).
Defined.

(** ** [parse_log] on a log in pieces *)

Lemma matches_of_app l1 l2 : matches_of (l1 ++ l2) = matches_of l1 ++ matches_of l2.
Proof. unfold matches_of. apply flat_map_app. Qed.

Lemma traverse_app A B (f : A -> outcome B) l1 l2 :
  traverse f (l1 ++ l2) =
  (x <- traverse f l1 ;; y <- traverse f l2 ;; Ok (x ++ y))%outcome.
Proof.
  induction l1 as [|a l1 IH]; simpl.
  - destruct (traverse f l2); reflexivity.
  - destruct (f a); simpl; [|reflexivity]. rewrite IH.
    destruct (traverse f l1); simpl; [|reflexivity].
    destruct (traverse f l2); reflexivity.
Qed.

Lemma columns_app x y : columns (x ++ y) = app6 (columns x) (columns y).
Proof. unfold columns, app6. now rewrite !map_app. Qed.

Lemma loop_end_app6 err r1 r2 :
  loop_end err (app6 r1 r2) = (r <- loop_end err r2 ;; Ok (app6 r1 r))%outcome.
Proof. unfold loop_end. destruct err as [[[]| | | |]|]; reflexivity. Qed.

(** X3. The parse of a log in two pieces: the parse of the first piece
    followed, list by list, by the parse of the second, the read ending
    with the second piece as it ends with the whole; it raises when the
    first piece raises, and else when the second does. *)
Theorem parse_log_concat l1 l2 :
  (forall err,
     parse_log (Returns {| r_lines := l1 ++ l2; r_error := err |}) =
     (r1 <- parse_log (Returns (all_read l1)) ;;
      r2 <- parse_log (Returns {| r_lines := l2; r_error := err |}) ;;
      Ok (app6 r1 r2))%outcome) /\
  parse_log (Returns (all_read (l1 ++ l2))) =
  (r1 <- parse_log (Returns (all_read l1)) ;;
   r2 <- parse_log (Returns (all_read l2)) ;; Ok (app6 r1 r2))%outcome.
Proof.
  assert (G : forall err,
     parse_log (Returns {| r_lines := l1 ++ l2; r_error := err |}) =
     (r1 <- parse_log (Returns (all_read l1)) ;;
      r2 <- parse_log (Returns {| r_lines := l2; r_error := err |}) ;;
      Ok (app6 r1 r2))%outcome).
  { intros err. rewrite !parse_log_traverse. cbn [all_read r_lines r_error loop_end].
    rewrite matches_of_app, traverse_app.
    destruct (traverse convert (matches_of l1)); cbn [obind]; [|reflexivity].
    destruct (traverse convert (matches_of l2)); cbn [obind]; [|reflexivity].
    now rewrite columns_app, loop_end_app6. }
  split; [exact G|]. exact (G None).
Qed.

Lemma matches_of_filter lines : matches_of (filter matches lines) = matches_of lines.
Proof.
  unfold matches_of, matches. induction lines as [|line rest IH]; simpl; [reflexivity|].
  destruct (Re.search pattern line) as [m|] eqn:E; simpl; [rewrite E|]; now rewrite IH.
Qed.

Lemma matches_of_none lines :
  (forall line, In line lines -> matches line = false) -> matches_of lines = [].
Proof.
  unfold matches_of, matches. induction lines as [|line rest IH]; intros H; [reflexivity|].
  simpl. pose proof (H line (or_introl eq_refl)) as E.
  destruct (Re.search pattern line); [discriminate|]. simpl.
  apply IH. intros l Hl. apply H. now right.
Qed.

(** X4. The lines a file yields on which the pattern does not match count
    for nothing: [parse_log] returns, or raises, on the file what it
    does on the file without them, the read ending the same way. When
    the pattern matches on no line, [parse_log] gives what the end of
    the read gives on six empty lists: the exception of the read if it
    raises one that leaves the loop, and, when the file is read to its
    end, the six empty lists an absent file gives. *)
Theorem unmatched_lines_ignored file :
  parse_log (Returns file) =
    parse_log (Returns {| r_lines := filter matches (r_lines file);
                          r_error := r_error file |}) /\
  ((forall line, In line (r_lines file) -> matches line = false) ->
   parse_log (Returns file) = loop_end (r_error file) empty /\
   (r_error file = None ->
    parse_log (Returns file) = parse_log (Errno FileNotFoundError))).
Proof.
  split.
  - rewrite !parse_log_traverse. cbn [r_lines r_error]. now rewrite matches_of_filter.
  - intros H. rewrite parse_log_traverse, (matches_of_none _ H). cbn [traverse obind].
    split; [reflexivity|]. intros ->. reflexivity.
Qed.

Lemma unmatched_lines_ignored_witness :
  (forall line, In line [" Solving for fluid"; ""] -> matches line = false) /\
  parse_log (Returns (all_read [" Solving for fluid"; ""])) =
  parse_log (Errno FileNotFoundError).
Proof.
  assert (H : forall line, In line (r_lines (all_read [" Solving for fluid"; ""])) ->
                           matches line = false).
  { intros line [<-|[<-|[]]]; reflexivity. }
  split; [exact H|].
  apply (proj2 (proj2 (unmatched_lines_ignored (all_read [" Solving for fluid"; ""])) H)).
  reflexivity.
Defined.

(** ** The drawing *)

Lemma drawn_twice ax lt ax' lt' s :
  set_label_texts lt (set_axes ax (set_label_texts lt' (set_axes ax' s))) =
  set_label_texts lt (set_axes ax s).
Proof. destruct s; reflexivity. Qed.

Lemma drawn_same s : set_label_texts (label_texts s) (set_axes (axes s) s) = s.
Proof. destruct s; reflexivity. Qed.

Lemma update_plots_outcome fig self :
  List.length (x_modes self) = 5%nat -> List.length (axes self) = 5%nat ->
  eq_len (lists self) ->
  outcome_of (update_plots fig) self =
  if forallb fits (steps self)
  then match fig_tight_layout fig with
       | Ok _ => fig_draw fig
       | Raise e => Raise e
       end
  else Raise OverflowError.
Proof.
  intros Hx Ha Hl. unfold outcome_of. rewrite update_plots_unfold by assumption.
  destruct (forallb fits (steps self)); reflexivity.
Qed.

Lemma update_plots_trace fig self :
  List.length (x_modes self) = 5%nat -> List.length (axes self) = 5%nat ->
  eq_len (lists self) ->
  calls_of (update_plots fig) self =
  if forallb fits (steps self)
  then TightLayout :: match fig_tight_layout fig with
                      | Ok _ => [CanvasDraw]
                      | Raise _ => []
                      end
  else [].
Proof.
  intros Hx Ha Hl. unfold calls_of. rewrite update_plots_unfold by assumption.
  destruct (forallb fits (steps self)); reflexivity.
Qed.

(** The state [update_plots] leaves is one on which it changes nothing. *)
Lemma update_plots_twice fig1 fig2 self :
  List.length (x_modes self) = 5%nat -> List.length (axes self) = 5%nat ->
  eq_len (lists self) ->
  state_after (update_plots fig2) (state_after (update_plots fig1) self) =
  state_after (update_plots fig1) self.
Proof.
  intros Hx Ha Hl. rewrite (@update_plots_state fig1 self Hx Ha Hl).
  destruct (forallb fits (steps self)) eqn:E.
  - destruct (drawn_fields (charts (lists self) (x_modes self)) xlabels self)
      as (El & Ex & Eax & _).
    rewrite update_plots_state; try congruence; [|now rewrite Eax].
    rewrite (steps_lists El), E, El, Ex. apply drawn_twice.
  - destruct (drawn_fields (set_nth (axes self) 0 None) [] self) as (El & Ex & Eax & _).
    rewrite update_plots_state; try congruence; [|now rewrite Eax, length_set_nth].
    rewrite (steps_lists El), E, Eax, set_nth_twice. apply drawn_twice.
Qed.

Lemma update_plots_shape fig self :
  List.length (x_modes self) = 5%nat -> List.length (axes self) = 5%nat ->
  eq_len (lists self) ->
  List.length (x_modes (state_after (update_plots fig) self)) = 5%nat /\
  List.length (axes (state_after (update_plots fig) self)) = 5%nat /\
  lists (state_after (update_plots fig) self) = lists self.
Proof.
  intros Hx Ha Hl. split; [|split].
  - now rewrite update_plots_x_modes.
  - rewrite update_plots_state by assumption.
    destruct (forallb fits (steps self)).
    + now rewrite (proj1 (proj2 (proj2 (drawn_fields _ _ _)))).
    + now rewrite (proj1 (proj2 (proj2 (drawn_fields _ _ _)))), length_set_nth.
  - apply update_plots_lists.
Qed.

(** X5. Drawing again changes nothing in the state. With five modes for
    the five subplots and six lists of one length, the state
    [update_plots] leaves does not depend on what the layout and the
    drawing of the figure do, a second [update_plots] leaves it as it
    is and returns or raises as it does on the first state; and when
    float holds every step, it does not depend on what the subplots
    showed and on the labels that were registered before. *)
Theorem redraw_idempotent self fig1 fig2 :
  List.length (x_modes self) = 5%nat -> List.length (axes self) = 5%nat ->
  eq_len (lists self) ->
  let drawn := state_after (update_plots fig1) self in
  state_after (update_plots fig2) self = drawn /\
  state_after (update_plots fig2) drawn = drawn /\
  outcome_of (update_plots fig2) drawn = outcome_of (update_plots fig2) self /\
  (forallb fits (steps self) = true ->
   forall ax lt, List.length ax = 5%nat ->
     state_after (update_plots fig2) (set_label_texts lt (set_axes ax self)) = drawn).
Proof.
  intros Hx Ha Hl drawn.
  destruct (@update_plots_shape fig1 self Hx Ha Hl) as (Dx & Da & Dl). fold drawn in Dx, Da, Dl.
  split; [|split; [|split]].
  - unfold drawn. now rewrite !update_plots_state.
  - now apply update_plots_twice.
  - rewrite !update_plots_outcome; try assumption; [|now rewrite Dl].
    now rewrite (steps_lists Dl).
  - intros Hf ax lt Hax.
    destruct (drawn_fields ax lt self) as (El & Ex & Ea & _).
    unfold drawn. rewrite !update_plots_state; try congruence.
    rewrite (steps_lists El), Hf, El, Ex. apply drawn_twice.
Qed.

Lemma held_state :
  List.length (x_modes held) = 5%nat /\ List.length (axes held) = 5%nat /\
  eq_len (lists held) /\ forallb fits (steps held) = true.
Proof. vm_compute. repeat split. Qed.

Lemma redraw_idempotent_witness :
  (List.length (x_modes held) = 5%nat /\ List.length (axes held) = 5%nat /\
   eq_len (lists held) /\ forallb fits (steps held) = true) /\
  state_after (update_plots fine) (state_after (update_plots fine) held) =
  state_after (update_plots fine) held.
Proof.
  split; [exact held_state|].
  destruct held_state as (H1 & H2 & H3 & _).
  exact (proj1 (proj2 (@redraw_idempotent held fine fine H1 H2 H3))).
Defined.

(** X6. When float holds every step, [update_plots] leaves five charts;
    the title and the colour of a chart are those of its place in
    [titles] and [colors], whatever its mode (the first chart keeps the
    title 'Solution Time vs Step' when its axes are swapped), and every
    chart has as many x values as y values: the number of steps. *)
Theorem chart_titles_colors self fig :
  List.length (x_modes self) = 5%nat -> List.length (axes self) = 5%nat ->
  eq_len (lists self) -> forallb fits (steps self) = true ->
  forall i, (i < 5)%nat ->
  exists ch,
    nth_error (axes (state_after (update_plots fig) self)) i = Some (Some ch) /\
    nth_error titles i = Some (c_title ch) /\
    nth_error colors i = Some (c_color ch) /\
    series_length (c_x ch) = List.length (steps self) /\
    series_length (c_y ch) = List.length (steps self).
Proof.
  intros Hx Ha Hl Hf i Hi. rewrite update_plots_state by assumption. rewrite Hf.
  destruct self as [lfm lut a b c d e f xm lt ax].
  cbn [x_modes axes lists steps times dts cfls total_times step_times] in *.
  clear Ha Hf. revert Hx. five xm.
  destruct Hl as (Hb & Hc & Hd & He & Hf).
  cbn [steps times dts cfls total_times step_times] in Hb, Hc, Hd, He, Hf.
  assert (Hc5 : (i = 0 \/ i = 1 \/ i = 2 \/ i = 3 \/ i = 4)%nat) by lia.
  destruct Hc5 as [->|[->|[->|[->| ->]]]];
    cbv -[String.eqb List.length];
    match goal with
    | |- context [String.eqb ?m "step"] => destruct (String.eqb m "step")
    end;
    eexists; repeat split; cbv [c_x c_y series_length]; first [reflexivity | assumption].
Qed.

Lemma chart_titles_colors_witness :
  (List.length (x_modes held) = 5%nat /\ List.length (axes held) = 5%nat /\
   eq_len (lists held) /\ forallb fits (steps held) = true) /\
  exists ch,
    nth_error (axes (state_after (update_plots fine) held)) 0 = Some (Some ch) /\
    nth_error titles 0 = Some (c_title ch) /\
    nth_error colors 0 = Some (c_color ch) /\
    series_length (c_x ch) = List.length (steps held) /\
    series_length (c_y ch) = List.length (steps held).
Proof.
  split; [exact held_state|].
  destruct held_state as (H1 & H2 & H3 & H4).
  assert (H5 : (0 < 5)%nat) by lia.
  exact (@chart_titles_colors held fine H1 H2 H3 H4 0%nat H5).
Defined.

(** ** Clicks *)

Lemma artist_eqb_eq a b : artist_eqb a b = true <-> a = b.
Proof.
  destruct a, b; simpl; rewrite ?Nat.eqb_eq; split; intros H;
    try discriminate; congruence.
Qed.

Lemma index_of_none a l : index_of a l = None <-> ~ In a l.
Proof.
  induction l as [|b l IH]; simpl; [tauto|].
  destruct (artist_eqb b a) eqn:E.
  - apply artist_eqb_eq in E. split; [discriminate|]. intros H. exfalso. apply H. now left.
  - destruct (index_of a l) as [n|]; simpl; split; try discriminate; intros H.
    + assert (N : ~ In a l) by tauto. apply IH in N. discriminate.
    + intros [Hb|Hin]; [|tauto].
      apply artist_eqb_eq in Hb. congruence.
    + reflexivity.
Qed.

Lemma index_of_lt a l : forall idx, index_of a l = Some idx -> (idx < List.length l)%nat.
Proof.
  induction l as [|b l IH]; simpl; intros idx H; [discriminate|].
  destruct (artist_eqb b a); [inversion H; lia|].
  destruct (index_of a l) as [n|]; [|discriminate].
  inversion H. specialize (IH n eq_refl). lia.
Qed.

Lemma on_label_click_unfold a fig self :
  on_label_click a fig self =
  match index_of a (label_texts self) with
  | Some idx =>
      match nth_error (x_modes self) idx with
      | Some old =>
          update_plots fig (set_x_modes (set_nth (x_modes self) idx (toggled old)) self)
      | None => (Raise IndexError, self, [])
      end
  | None => (Ok tt, self, [])
  end.
Proof.
  unfold on_label_click, toggled. unfold bind at 1, get at 1.
  destruct (index_of a (label_texts self)) as [idx|]; [|reflexivity].
  unfold bind at 1, lift, index.
  destruct (nth_error (x_modes self) idx) as [old|]; [|reflexivity].
  unfold bind, modify. destruct (update_plots _ _) as [[o s] c]. reflexivity.
Qed.

(** What the layout and the drawing of the figure give, and the calls
    made on the way. *)
Lemma click_run a fig self : wf self ->
  on_label_click a fig self =
  match index_of a (label_texts self) with
  | Some idx =>
      (match fig_tight_layout fig with
       | Ok _ => fig_draw fig
       | Raise e => Raise e
       end,
       state_after (on_label_click a fig) self,
       TightLayout :: match fig_tight_layout fig with
                      | Ok _ => [CanvasDraw]
                      | Raise _ => []
                      end)
  | None => (Ok tt, self, [])
  end.
Proof.
  intros W. unfold state_after. rewrite on_label_click_unfold.
  destruct (index_of a (label_texts self)) as [idx|] eqn:Hi; [|reflexivity].
  pose proof (index_of_lt _ _ Hi) as Hlt.
  destruct W as [H1 H2 H3 H4 H5 H6].
  assert (HL : label_texts self = xlabels).
  { destruct H4 as [E|E]; [rewrite E in Hlt; simpl in Hlt; lia|exact E]. }
  destruct (nth_error (x_modes self) idx) as [old|] eqn:Hn.
  2:{ apply nth_error_None in Hn. rewrite HL in Hlt. simpl in Hlt. lia. }
  destruct (set_x_modes_fields (set_nth (x_modes self) idx (toggled old)) self)
    as (Hx & Ha & _ & Hl).
  rewrite update_plots_unfold.
  - rewrite (steps_lists Hl), (H5 HL). reflexivity.
  - rewrite Hx, length_set_nth. exact H1.
  - congruence.
  - rewrite Hl. exact H6.
Qed.

Lemma on_label_click_lists a fig : stable lists (on_label_click a fig).
Proof. unfold on_label_click, update_plots, redraw. frame. Qed.

Lemma on_label_click_last_update_time a fig :
  stable last_update_time (on_label_click a fig).
Proof. unfold on_label_click, update_plots, redraw. frame. Qed.

Lemma on_label_click_calls a fig : calls_in drawing (on_label_click a fig).
Proof. unfold on_label_click, update_plots, redraw, drawing. frame. Qed.

(** X7. A pick event in a run leaves the six lists and the two clocks,
    and sets no indicator. A pick of a registered x-axis label draws the
    five charts again and registers the five labels again; it asks for
    the layout of the figure and, if that returns, for its drawing, and
    it raises what the layout or the drawing raises, and nothing else. A
    pick of any other artist changes nothing, calls nothing and
    returns. *)
Theorem click_outcome a fig self :
  reachable self ->
  lists (state_after (on_label_click a fig) self) = lists self /\
  last_file_mod (state_after (on_label_click a fig) self) = last_file_mod self /\
  last_update_time (state_after (on_label_click a fig) self) = last_update_time self /\
  (forall c, In c (calls_of (on_label_click a fig) self) -> drawing c) /\
  (In a (label_texts self) ->
   outcome_of (on_label_click a fig) self =
     match fig_tight_layout fig with
     | Ok _ => fig_draw fig
     | Raise e => Raise e
     end /\
   calls_of (on_label_click a fig) self =
     TightLayout :: match fig_tight_layout fig with
                    | Ok _ => [CanvasDraw]
                    | Raise _ => []
                    end /\
   label_texts (state_after (on_label_click a fig) self) = xlabels) /\
  (~ In a (label_texts self) -> on_label_click a fig self = (Ok tt, self, [])).
Proof.
  intros R. pose proof (reachable_wf R) as W.
  pose proof (@click_run a fig self W) as E.
  pose proof (index_of_none a (label_texts self)) as N.
  split; [|split; [|split; [|split; [|split]]]].
  - apply on_label_click_lists.
  - apply on_label_click_last_file_mod.
  - apply on_label_click_last_update_time.
  - intros c. apply on_label_click_calls.
  - intros Hin.
    destruct (index_of a (label_texts self)) as [idx|] eqn:Hi; [|tauto].
    split; [|split].
    + unfold outcome_of. now rewrite E.
    + unfold calls_of. now rewrite E.
    + assert (HL : label_texts self = xlabels).
      { destruct (wf_labels W) as [L|L]; [rewrite L in Hin; destruct Hin|exact L]. }
      pose proof (index_of_lt _ _ Hi) as Hlt. rewrite HL in Hlt. simpl in Hlt.
      destruct a as [i|n].
      * assert (Hi5 : (i < 5)%nat) by (apply in_xlabels; now rewrite <- HL).
        destruct (@click_x_modes self i fig W HL Hi5) as (_ & _ & _ & _ & L). exact L.
      * rewrite HL in Hin. simpl in Hin. intuition discriminate.
  - intros Hn. rewrite E. apply N in Hn. now rewrite Hn.
Qed.

Lemma click_outcome_witness :
  reachable held /\
  In (XLabel 2) (label_texts held) /\
  calls_of (on_label_click (XLabel 2) fine) held = [TightLayout; CanvasDraw] /\
  on_label_click (OtherArtist 0) fine held = (Ok tt, held, []).
Proof.
  split; [exact held_reachable|]. split; [exact held_label_in|]. split.
  - apply (proj1 (proj2 (proj1 (proj2 (proj2 (proj2 (proj2
             (@click_outcome (XLabel 2) fine held held_reachable))))) held_label_in))).
  - apply (proj2 (proj2 (proj2 (proj2 (proj2
             (@click_outcome (OtherArtist 0) fine held held_reachable)))))).
    rewrite held_labels. simpl. intuition discriminate.
Defined.

(** ** Ticks *)

Lemma led_calls_not_drawing w self c : In c (led_calls w self) -> ~ drawing c.
Proof.
  unfold led_calls, flash_calls, drawing.
  destruct (newer w self), (jammed w self); simpl; intros H D;
    intuition (subst; discriminate).
Qed.

Lemma update_data_x_modes w : stable x_modes (update_data w).
Proof.
  intros self. rewrite update_data_state.
  destruct (clocked_fields w self) as (Cx & _).
  destruct (parse_log (w_open w)) as [r|e]; [|exact Cx].
  rewrite update_plots_x_modes, <- Cx. apply set_lists_fields.
Qed.

(** The state a tick draws, once [parse_log] has returned. *)
Lemma tick_run w self r : wf self -> parse_log (w_open w) = Ok r ->
  List.length (x_modes (set_lists r (clocked w self))) = 5%nat /\
  List.length (axes (set_lists r (clocked w self))) = 5%nat /\
  eq_len (lists (set_lists r (clocked w self))) /\
  steps (state_after (update_data w) self) = steps (set_lists r (clocked w self)).
Proof.
  intros [H1 H2 H3 H4 H5 H6] Hp.
  destruct (clocked_fields w self) as (Cx & Ca & _ & _).
  destruct (set_lists_fields r (clocked w self)) as (Sx & Sa & _).
  split; [congruence|]. split; [congruence|]. split.
  - rewrite lists_set_lists. eapply parse_log_eq_len; eauto.
  - apply steps_lists. rewrite update_data_lists, Hp. now rewrite lists_set_lists.
Qed.

(** X8. A tick in a run never changes the modes. When [parse_log]
    raises, the tick raises the same exception, the lists, the charts
    and the labels stay as they were and nothing is drawn. When
    [parse_log] returns and float holds every step it returned, the five
    labels are registered and the tick asks for the layout of the figure
    and, if that returns, for its drawing, after the calls on the
    indicators; it raises what the layout or the drawing raises, and
    nothing else. When [parse_log] returns a step that float does not
    hold, the tick raises OverflowError: the first subplot is left
    cleared, no label is registered and nothing is laid out or drawn. *)
Theorem tick_outcome w self :
  reachable self ->
  let self' := state_after (update_data w) self in
  x_modes self' = x_modes self /\
  (forall e, parse_log (w_open w) = Raise e ->
     outcome_of (update_data w) self = Raise e /\
     lists self' = lists self /\ axes self' = axes self /\
     label_texts self' = label_texts self /\
     forall c, In c (calls_of (update_data w) self) -> ~ drawing c) /\
  (forall r, parse_log (w_open w) = Ok r -> forallb fits (steps self') = true ->
     outcome_of (update_data w) self =
       match fig_tight_layout (w_figure w) with
       | Ok _ => fig_draw (w_figure w)
       | Raise e => Raise e
       end /\
     label_texts self' = xlabels /\
     exists leds,
       calls_of (update_data w) self =
         leds ++ TightLayout :: match fig_tight_layout (w_figure w) with
                                | Ok _ => [CanvasDraw]
                                | Raise _ => []
                                end /\
       forall c, In c leds -> ~ drawing c) /\
  (forall r, parse_log (w_open w) = Ok r -> forallb fits (steps self') = false ->
     outcome_of (update_data w) self = Raise OverflowError /\
     label_texts self' = [] /\
     nth_error (axes self') 0 = Some None /\
     forall c, In c (calls_of (update_data w) self) -> ~ drawing c).
Proof.
  intros R self'. pose proof (reachable_wf R) as W.
  split; [|split; [|split]].
  - apply update_data_x_modes.
  - intros e He. unfold self'.
    rewrite update_data_state, update_data_calls, update_data_outcome, He.
    destruct (clocked_fields w self) as (_ & Ca & Cl & Cs).
    repeat split; auto.
    intros c. rewrite app_nil_r. apply led_calls_not_drawing.
  - intros r Hr Hf. destruct (@tick_run w self r W Hr) as (Tx & Ta & Tl & Ts).
    fold self' in Ts. rewrite Ts in Hf. unfold self'.
    rewrite update_data_state, update_data_calls, update_data_outcome, Hr.
    rewrite update_plots_outcome, update_plots_trace, update_plots_state by assumption.
    rewrite Hf. split; [reflexivity|]. split; [apply drawn_fields|].
    exists (led_calls w self). split; [reflexivity|].
    intros c. apply led_calls_not_drawing.
  - intros r Hr Hf. destruct (@tick_run w self r W Hr) as (Tx & Ta & Tl & Ts).
    fold self' in Ts. rewrite Ts in Hf. unfold self'.
    rewrite update_data_state, update_data_calls, update_data_outcome, Hr.
    rewrite update_plots_outcome, update_plots_trace, update_plots_state by assumption.
    rewrite Hf. split; [reflexivity|]. split; [apply drawn_fields|]. split.
    + rewrite (proj1 (proj2 (proj2 (drawn_fields _ _ _)))).
      apply nth_error_set_nth_eq. lia.
    + intros c. rewrite app_nil_r. apply led_calls_not_drawing.
Qed.

Lemma tick_outcome_witness :
  reachable held /\
  outcome_of (update_data cut_world) held = Raise ValueError /\
  outcome_of (update_data big_world) held = Raise OverflowError.
Proof.
  split; [exact held_reachable|]. split.
  - apply (proj1 (proj1 (proj2 (@tick_outcome cut_world held held_reachable)) ValueError
                    (proj2 (proj2 cut_line_raises)))).
  - assert (P : exists r, parse_log (w_open big_world) = Ok r) by (eexists; vm_compute; reflexivity).
    destruct P as [r P].
    assert (Hf : forallb fits (steps (state_after (update_data big_world) held)) = false)
      by (vm_compute; reflexivity).
    exact (proj1 (proj2 (proj2 (proj2 (@tick_outcome big_world held held_reachable))) r P Hf)).
Defined.

(** ** The display *)

Lemma exec_synced evs : forall self,
  wf self ->
  (label_texts self = [] /\ nth_error (axes self) 0 = Some None \/
   label_texts self = xlabels /\ axes self = charts (lists self) (x_modes self)) ->
  (label_texts (exec self evs) = [] /\ nth_error (axes (exec self evs)) 0 = Some None \/
   label_texts (exec self evs) = xlabels /\
   axes (exec self evs) = charts (lists (exec self evs)) (x_modes (exec self evs))).
Proof.
  assert (D : forall fig s,
    List.length (x_modes s) = 5%nat -> List.length (axes s) = 5%nat -> eq_len (lists s) ->
    let s' := state_after (update_plots fig) s in
    label_texts s' = [] /\ nth_error (axes s') 0 = Some None \/
    label_texts s' = xlabels /\ axes s' = charts (lists s') (x_modes s')).
  { intros fig s Hx Ha Hl s'. unfold s'. rewrite update_plots_state by assumption.
    destruct (forallb fits (steps s)).
    - right. destruct (drawn_fields (charts (lists s) (x_modes s)) xlabels s)
        as (E1 & E2 & E3 & E4). rewrite E1, E2. auto.
    - left. destruct (drawn_fields (set_nth (axes s) 0 None) [] s) as (_ & _ & E3 & E4).
      split; [exact E4|]. rewrite E3. apply nth_error_set_nth_eq. lia. }
  induction evs as [|[w|a fig] evs IH]; intros self W I; cbn [exec handle]; [exact I| |].
  - apply IH; [now apply update_data_wf|].
    rewrite update_data_state.
    destruct (parse_log (w_open w)) as [r|e] eqn:Hp.
    + destruct W as [H1 H2 H3 H4 H5 H6].
      destruct (clocked_fields w self) as (Cx & Ca & _ & _).
      destruct (set_lists_fields r (clocked w self)) as (Sx & Sa & _).
      apply D; try congruence.
      rewrite lists_set_lists. eapply parse_log_eq_len; eauto.
    + destruct (clocked_fields w self) as (Cx & Ca & Cl & Cs).
      rewrite Cx, Ca, Cl, Cs. exact I.
  - apply IH; [now apply on_label_click_wf|].
    rewrite on_label_click_state.
    destruct (index_of a (label_texts self)) as [idx|]; [|exact I].
    destruct (nth_error (x_modes self) idx) as [old|]; [|exact I].
    destruct W as [H1 H2 H3 H4 H5 H6].
    destruct (set_x_modes_fields
                (set_nth (x_modes self) idx (if String.eqb old "step" then "time" else "step"))
                self) as (Hx & Ha & _ & Hl).
    apply D.
    + rewrite Hx, length_set_nth. exact H1.
    + congruence.
    + rewrite Hl. exact H6.
Qed.

(** X9. In every state of a run, either no label is registered and the
    first subplot is empty (nothing was drawn yet, or the last drawing
    met a step that float does not hold), or the five labels are
    registered, float holds every step, and the window shows the data
    the object holds: drawing again would leave the state as it is,
    whatever the layout and the drawing of the figure do. *)
Theorem display_in_sync self :
  reachable self ->
  (label_texts self = [] /\ nth_error (axes self) 0 = Some None) \/
  (label_texts self = xlabels /\ forallb fits (steps self) = true /\
   forall fig, state_after (update_plots fig) self = self).
Proof.
  intros R. pose proof (reachable_wf R) as W.
  destruct R as (g & now & evs & ->).
  destruct (@exec_synced evs (init g now) (init_wf g now)) as [I|[I1 I2]].
  - left. split; reflexivity.
  - left. exact I.
  - right. destruct W as [H1 H2 H3 H4 H5 H6]. split; [exact I1|].
    split; [exact (H5 I1)|]. intros fig.
    rewrite update_plots_state by assumption. rewrite (H5 I1), <- I1, <- I2.
    apply drawn_same.
Qed.

Lemma display_in_sync_witness :
  reachable held /\ state_after (update_plots fine) held = held.
Proof.
  split; [exact held_reachable|].
  destruct (@display_in_sync held held_reachable) as [[E _]|(_ & _ & E)].
  - rewrite held_labels in E. discriminate E.
  - exact (E fine).
Defined.

(** ** The runs *)

Lemma exec_app self evs1 evs2 : exec self (evs1 ++ evs2) = exec (exec self evs1) evs2.
Proof. revert self. induction evs1 as [|ev evs1 IH]; intros self; simpl; auto. Qed.

(** X10. In every state of a run the six lists are the result of the
    last tick on which [parse_log] returned, whatever ticks that raised
    and whatever picks came after it; they are empty as long as no tick
    returned. *)
Theorem lists_of_last_parse g now evs :
  let self := exec (init g now) evs in
  (lists self = empty /\ forall w, In (Tick w) evs -> fails w) \/
  (exists evs1 w evs2,
     evs = evs1 ++ Tick w :: evs2 /\
     parse_log (w_open w) = Ok (lists self) /\
     forall w', In (Tick w') evs2 -> fails w').
Proof.
  induction evs as [|ev evs IH] using rev_ind; cbn zeta.
  - left. split; [reflexivity|]. intros w [].
  - rewrite exec_app. cbn [exec]. cbn zeta in IH.
    set (self := exec (init g now) evs) in *.
    destruct ev as [w|a fig]; cbn [handle].
    + rewrite !update_data_lists.
      destruct (parse_log (w_open w)) as [r|e] eqn:Hp.
      * right. exists evs, w, []. split; [reflexivity|]. split; [exact Hp|]. intros w' [].
      * destruct IH as [[E F]|(evs1 & w0 & evs2 & E & P & F)].
        -- left. split; [exact E|]. intros w' H. apply in_app_or in H.
           destruct H as [H|[H|[]]]; [now apply F|]. inversion H; subst. now exists e.
        -- right. exists evs1, w0, (evs2 ++ [Tick w]). split; [|split].
           ++ rewrite E, <- app_assoc. reflexivity.
           ++ exact P.
           ++ intros w' H. apply in_app_or in H.
              destruct H as [H|[H|[]]]; [now apply F|]. inversion H; subst. now exists e.
    + rewrite !(on_label_click_lists a fig self).
      destruct IH as [[E F]|(evs1 & w0 & evs2 & E & P & F)].
      * left. split; [exact E|]. intros w' H. apply in_app_or in H.
        destruct H as [H|[H|[]]]; [now apply F|discriminate H].
      * right. exists evs1, w0, (evs2 ++ [Pick a fig]). split; [|split].
        -- rewrite E, <- app_assoc. reflexivity.
        -- exact P.
        -- intros w' H. apply in_app_or in H.
           destruct H as [H|[H|[]]]; [now apply F|discriminate H].
Qed.

Lemma exec_modes evs : forall self,
  wf self -> (forall a fig, In (Pick a fig) evs -> ~ In a xlabels) ->
  x_modes (exec self evs) = x_modes self.
Proof.
  induction evs as [|[w|a fig] evs IH]; intros self W H; cbn [exec handle]; [reflexivity| |].
  - rewrite IH.
    + apply update_data_x_modes.
    + now apply update_data_wf.
    + intros a fig Ha. apply (H a fig). now right.
  - assert (N : ~ In a (label_texts self)).
    { destruct (wf_labels W) as [E|E]; rewrite E; [tauto|]. apply (H a fig). now left. }
    apply index_of_none in N. rewrite on_label_click_state, N.
    apply IH; [exact W|]. intros a' fig' Ha. apply (H a' fig'). now right.
Qed.

(** X11. The modes change by clicks on the x-axis labels only: as long
    as no pick event names one of the five labels, whatever the ticks
    read and whatever else is picked, all five charts are in mode
    'step'. *)
Theorem modes_until_click g now evs :
  (forall a fig, In (Pick a fig) evs -> ~ In a xlabels) ->
  x_modes (exec (init g now) evs) = ["step"; "step"; "step"; "step"; "step"].
Proof.
  intros H. rewrite exec_modes; [reflexivity|apply init_wf|exact H].
Qed.

Lemma modes_until_click_witness :
  (forall a fig, In (Pick a fig) [Tick sample_world; Pick (OtherArtist 0) fine] ->
                 ~ In a xlabels) /\
  x_modes (exec sample_init [Tick sample_world; Pick (OtherArtist 0) fine]) =
  ["step"; "step"; "step"; "step"; "step"].
Proof.
  assert (H : forall a fig, In (Pick a fig) [Tick sample_world; Pick (OtherArtist 0) fine] ->
                            ~ In a xlabels).
  { intros a fig [E|[E|[]]]; [discriminate E|]. inversion E; subst.
    simpl. intuition discriminate. }
  split; [exact H|].
  exact (@modes_until_click (Errno FileNotFoundError) t0
           [Tick sample_world; Pick (OtherArtist 0) fine] H).
Defined.

(** ** The indicators over several ticks *)

Lemma exec_last_file_mod m evs : forall self,
  SFltb (last_file_mod self) m = false -> Forall (reads m) evs ->
  SFltb (last_file_mod (exec self evs)) m = false.
Proof.
  induction evs as [|[w|a fig] evs IH]; intros self H F; cbn [exec handle]; [exact H| |];
    inversion F as [|? ? R F']; subst; apply IH; auto.
  - rewrite update_data_last_file_mod. cbn [reads] in R. rewrite R, H. exact H.
  - now rewrite on_label_click_last_file_mod.
Qed.

Lemma update_data_not_newer w self :
  SFltb (last_file_mod (state_after (update_data w) self)) (mod_of w) = false.
Proof.
  rewrite update_data_last_file_mod.
  destruct (SFltb (last_file_mod self) (mod_of w)) eqn:E; [apply SFltb_irrefl|exact E].
Qed.

(** X12. A file that does not change sets the Update indicator once at
    most: after a tick that read the modification time [m] (0 when
    [getmtime] raised), and also after [__init__] took [m] for
    [last_file_mod], no tick that reads [m] sets the indicator, as long
    as the ticks in between read [m] as well, whatever is picked
    meanwhile. *)
Theorem update_flashes_once w evs w' :
  Forall (reads (mod_of w)) evs -> mod_of w' = mod_of w ->
  (forall self s,
     ~ In (SetStyleSheet update_led s)
          (calls_of (update_data w') (exec (state_after (update_data w) self) evs))) /\
  (forall g now s,
     last_file_mod (init g now) = mod_of w ->
     ~ In (SetStyleSheet update_led s)
          (calls_of (update_data w') (exec (init g now) evs))).
Proof.
  intros F E. split.
  - intros self s. rewrite update_led_in, E. intros [_ H].
    rewrite (@exec_last_file_mod (mod_of w) evs) in H; [discriminate H| |exact F].
    apply update_data_not_newer.
  - intros g now s Hg. rewrite update_led_in, E. intros [_ H].
    rewrite (@exec_last_file_mod (mod_of w) evs) in H; [discriminate H| |exact F].
    rewrite Hg. apply SFltb_irrefl.
Qed.

Lemma update_flashes_once_witness :
  (Forall (reads (mod_of sample_world)) [Pick (XLabel 0) fine; Tick sample_world] /\
   mod_of denied_world = mod_of absent_world) /\
  ~ In (SetStyleSheet update_led (style "green"))
       (calls_of (update_data sample_world)
          (exec (state_after (update_data sample_world) sample_init)
                [Pick (XLabel 0) fine; Tick sample_world])).
Proof.
  assert (F : Forall (reads (mod_of sample_world)) [Pick (XLabel 0) fine; Tick sample_world]).
  { repeat constructor. }
  split; [split; [exact F|reflexivity]|].
  exact (proj1 (@update_flashes_once sample_world [Pick (XLabel 0) fine; Tick sample_world]
                  sample_world F eq_refl) sample_init (style "green")).
Defined.

(** X13. No indicator stays lit: whenever a tick sets an indicator, the
    Update indicator to green or the Jam indicator to red, its next call
    schedules, 50 ms later, the return of this very indicator to gray;
    and a tick schedules nothing else. *)
Theorem flash_has_reset w self :
  (forall l s, In (SetStyleSheet l s) (calls_of (update_data w) self) ->
     (l = update_led /\ s = style "green" \/ l = delay_led /\ s = style "red") /\
     exists before after,
       calls_of (update_data w) self =
       before ++ SetStyleSheet l s :: SingleShot 50 (SetStyleSheet l (style "gray")) :: after) /\
  (forall ms c, In (SingleShot ms c) (calls_of (update_data w) self) ->
     ms = 50 /\ exists l, c = SetStyleSheet l (style "gray")).
Proof.
  split.
  - intros l s H. pose proof H as H0. rewrite led_calls_in in H0.
    destruct H0 as [H0|[[D|D] _]]; [|discriminate D|discriminate D].
    rewrite update_data_calls.
    set (X := match parse_log (w_open w) with Ok r => _ | Raise _ => _ end). clearbody X.
    unfold led_calls, flash_calls in *.
    destruct (newer w self), (jammed w self); simpl in H0;
      repeat match goal with
             | H : _ \/ _ |- _ => destruct H
             | H : False |- _ => destruct H
             | H : SetStyleSheet _ _ = SetStyleSheet _ _ |- _ => inversion H; clear H; subst
             | H : SingleShot _ _ = SetStyleSheet _ _ |- _ => discriminate H
             end;
      (split; [auto|]);
      first [ exists []; eexists; reflexivity
            | exists [SetStyleSheet update_led (style "green");
                      SingleShot 50 (SetStyleSheet update_led (style "gray"))];
              eexists; reflexivity ].
  - intros ms c H. rewrite led_calls_in in H.
    destruct H as [H|[[D|D] _]]; [|discriminate D|discriminate D].
    unfold led_calls, flash_calls in H.
    destruct (newer w self), (jammed w self); simpl in H;
      repeat match goal with
             | H : _ \/ _ |- _ => destruct H
             | H : False |- _ => destruct H
             | H : SingleShot _ _ = SingleShot _ _ |- _ => inversion H; clear H; subst
             | H : SetStyleSheet _ _ = SingleShot _ _ |- _ => discriminate H
             end;
      (split; [reflexivity|eexists; reflexivity]).
Qed.

Lemma flash_has_reset_witness :
  In (SetStyleSheet delay_led (style "red")) (calls_of (update_data absent_world) sample_init) /\
  exists before after,
    calls_of (update_data absent_world) sample_init =
    before ++ SetStyleSheet delay_led (style "red") ::
              SingleShot 50 (SetStyleSheet delay_led (style "gray")) :: after.
Proof.
  assert (H : In (SetStyleSheet delay_led (style "red"))
                 (calls_of (update_data absent_world) sample_init)).
  { apply led_calls_in. left. vm_compute. auto. }
  split; [exact H|].
  exact (proj2 (proj1 (@flash_has_reset absent_world sample_init) delay_led (style "red") H)).
Defined.
